(** * ItIsPay Go client: request execution, error mapping and wire formats

    A shallow embedding of the [itispay] package: the typed request and
    response records, their JSON wire forms as fixed by the struct tags,
    the private [doRequest] routine and the seven endpoint methods built
    on it.

    Go strings and byte slices are [string]s (sequences of bytes, one
    [ascii] per byte).  Go's [int] is [Z] (64-bit platform).  The effects
    of a call (what is written to standard output and which HTTP
    exchanges take place, in order) are kept in an explicit trace that
    every operation threads through.

    The parts of the Go standard library the package calls are modelled
    here as far as the package's behaviour depends on them:
    [encoding/json] (scanner, string unquoting and quoting, field
    matching), [net/url] (escaping, [Values]) and [unicode/utf8].
    Floating point, [time.Time], URL validation and the network itself
    are parameters, collected in the classes [GoTypes] and [GoDecoders]
    and in the [httpClient] field of a client. *)

From Stdlib Require Import ZArith String Ascii List Lia Bool DecimalString.
From stdpp Require Import gmap strings list.
Import ListNotations.
Local Open Scope string_scope.
Local Open Scope list_scope.
Local Open Scope stdpp_scope.

(** ** Bytes *)

Definition byte_code (c : ascii) : N := N_of_ascii c.

Definition in_range (lo hi : N) (c : ascii) : bool :=
  (lo <=? byte_code c)%N && (byte_code c <=? hi)%N.

Definition is_digit (c : ascii) : bool := in_range 48 57 c.
Definition is_digit19 (c : ascii) : bool := in_range 49 57 c.
Definition is_lower (c : ascii) : bool := in_range 97 122 c.
Definition is_upper (c : ascii) : bool := in_range 65 90 c.
Definition is_alnum (c : ascii) : bool := is_digit c || is_lower c || is_upper c.
Definition is_hex (c : ascii) : bool :=
  is_digit c || in_range 97 102 c || in_range 65 70 c.

(** The double quote, which a string literal of this file cannot hold. *)
Definition dquote : ascii := "034"%char.
Definition backslash : ascii := "092"%char.

Definition str1 (c : ascii) : string := String c EmptyString.

(** [rev_string acc] turns bytes collected most recent first into a string. *)
Definition rev_string (acc : list ascii) : string :=
  string_of_list_ascii (rev acc).

Definition string_is_empty (s : string) : bool :=
  match s with EmptyString => true | String _ _ => false end.

(** [fmt.Sprintf("%d", n)] *)
Definition fmt_d (n : Z) : string := NilZero.string_of_int (Z.to_int n).

(** ** unicode/utf8 *)

Module utf8.

(** [decode_len s] is the size [DecodeRune] reports for the bytes at the
    head of [s] when they start a well-formed encoding, and [None] where
    it reports [RuneError] with size 1. *)
Definition accept2 (lo hi : N) (s : string) : bool :=
  match s with String b _ => in_range lo hi b | EmptyString => false end.

Definition cont (s : string) : bool := accept2 128 191 s.

Definition tail (s : string) : string :=
  match s with String _ r => r | EmptyString => EmptyString end.

Definition decode_len (s : string) : option nat :=
  match s with
  | EmptyString => None
  | String p0 r =>
      let x := byte_code p0 in
      if (x <? 128)%N then Some 1%nat
      else if (x <? 194)%N then None
      else if (x <? 224)%N then if cont r then Some 2%nat else None
      else if (x <? 240)%N then
        let lo := if (x =? 224)%N then 160%N else 128%N in
        let hi := if (x =? 237)%N then 159%N else 191%N in
        if accept2 lo hi r && cont (tail r) then Some 3%nat else None
      else if (x <? 245)%N then
        let lo := if (x =? 240)%N then 144%N else 128%N in
        let hi := if (x =? 244)%N then 143%N else 191%N in
        if accept2 lo hi r && cont (tail r) && cont (tail (tail r))
        then Some 4%nat else None
      else None
  end.

Definition byte_of (n : Z) : ascii := ascii_of_N (Z.to_N n).

(** [EncodeRune]: surrogates and values above U+10FFFF become U+FFFD. *)
Definition RuneError : Z := 65533.

Definition EncodeRune (r : Z) : string :=
  let r := if ((r <? 0) || (1114111 <? r) || ((55296 <=? r) && (r <=? 57343)))%Z
           then RuneError else r in
  if (r <? 128)%Z then str1 (byte_of r)
  else if (r <? 2048)%Z then
    String (byte_of (Z.lor 192 (Z.shiftr r 6)))
      (str1 (byte_of (Z.lor 128 (Z.land r 63))))
  else if (r <? 65536)%Z then
    String (byte_of (Z.lor 224 (Z.shiftr r 12)))
      (String (byte_of (Z.lor 128 (Z.land (Z.shiftr r 6) 63)))
         (str1 (byte_of (Z.lor 128 (Z.land r 63)))))
  else
    String (byte_of (Z.lor 240 (Z.shiftr r 18)))
      (String (byte_of (Z.lor 128 (Z.land (Z.shiftr r 12) 63)))
         (String (byte_of (Z.lor 128 (Z.land (Z.shiftr r 6) 63)))
            (str1 (byte_of (Z.lor 128 (Z.land r 63)))))).

End utf8.

(** ** encoding/json: syntax *)

Module json.

(** A JSON text as the scanner sees it.  String and number literals keep
    their source text ([raw] is what stands between the quotes, escapes
    undecoded): the decoder unquotes or parses them only once it knows
    the Go type they are stored into. *)
#[warnings="-register-all"]
Inductive Value : Type :=
| Null
| Bool (b : bool)
| Number (lit : string)
| Str (raw : string)
| Array (elems : list Value)
| Object (members : list (string * Value)).

(** The scanner's step functions ([scanner.go]).  The ten states that
    spell out [true], [false] and [null] are one constructor carrying
    the bytes still expected and the value they denote. *)
#[warnings="-register-all"]
Inductive step : Type :=
| stateBeginValueOrEmpty
| stateBeginValue
| stateBeginStringOrEmpty
| stateBeginString
| stateEndValue
| stateEndTop
| stateInString
| stateInStringEsc
| stateInStringEscU (seen : nat)
| stateNeg
| state1
| state0
| stateDot
| stateDot0
| stateE
| stateESign
| stateE0
| stateLiteral (rest : string) (v : Value).

(** The scanner's [parseState] stack; each entry also holds what has
    been read of the composite value so far, most recent first. *)
#[warnings="-register-all"]
Inductive frame : Type :=
| parseObjectKey (done : list (string * Value)) (key : option string)
| parseObjectValue (done : list (string * Value)) (key : option string)
| parseArrayValue (done : list Value).

#[warnings="-register-all"]
Record scanner : Type := mkScanner {
  sc_step : step;
  parseState : list frame;
  sc_lit : list ascii;
  sc_top : option Value
}.

Definition maxNestingDepth : N := 10000.

Definition isSpace (c : ascii) : bool :=
  match c with
  | " "%char | "009"%char | "013"%char | "010"%char => true
  | _ => false
  end.

Definition scan_init : scanner :=
  mkScanner stateBeginValue [] [] None.

Definition set_step (s : scanner) (st : step) : option scanner :=
  Some (mkScanner st (parseState s) (sc_lit s) (sc_top s)).

Definition push_lit (s : scanner) (c : ascii) (st : step) : option scanner :=
  Some (mkScanner st (parseState s) (c :: sc_lit s) (sc_top s)).

(** A value is complete: hand it to the enclosing composite, or make it
    the top-level value. *)
Definition complete (v : Value) (ps : list frame) (top : option Value)
  : option (list frame * option Value) :=
  match ps with
  | [] => Some ([], Some v)
  | parseArrayValue done :: r => Some (parseArrayValue (v :: done) :: r, top)
  | parseObjectKey done None :: r =>
      match v with
      | Str raw => Some (parseObjectKey done (Some raw) :: r, top)
      | _ => None
      end
  | parseObjectValue done (Some k) :: r =>
      Some (parseObjectValue ((k, v) :: done) None :: r, top)
  | _ => None
  end.

Definition end_scalar (v : Value) (s : scanner) : option scanner :=
  match complete v (parseState s) (sc_top s) with
  | Some (ps, top) => Some (mkScanner stateEndValue ps [] top)
  | None => None
  end.

(** [popParseState] for a closed array or object [v]. *)
Definition pop_composite (v : Value) (rest : list frame) (s : scanner)
  : option scanner :=
  match complete v rest (sc_top s) with
  | Some (ps, top) =>
      Some (mkScanner (match ps with [] => stateEndTop | _ => stateEndValue end)
              ps [] top)
  | None => None
  end.

Definition pushParseState (s : scanner) (f : frame) (st : step)
  : option scanner :=
  let ps := f :: parseState s in
  if (N.of_nat (length ps) <=? maxNestingDepth)%N
  then Some (mkScanner st ps [] (sc_top s))
  else None.

Definition do_stateEndTop (s : scanner) (c : ascii) : option scanner :=
  if isSpace c then set_step s stateEndTop else None.

Definition do_stateEndValue (s : scanner) (c : ascii) : option scanner :=
  match parseState s with
  | [] => do_stateEndTop s c
  | f :: rest =>
      if isSpace c then set_step s stateEndValue
      else
        match f with
        | parseObjectKey done (Some k) =>
            if Ascii.eqb c ":"
            then Some (mkScanner stateBeginValue
                         (parseObjectValue done (Some k) :: rest) [] (sc_top s))
            else None
        | parseObjectKey _ None => None
        | parseObjectValue done None =>
            if Ascii.eqb c ","
            then Some (mkScanner stateBeginString
                         (parseObjectKey done None :: rest) [] (sc_top s))
            else if Ascii.eqb c "}"
            then pop_composite (Object (rev done)) rest s
            else None
        | parseObjectValue _ (Some _) => None
        | parseArrayValue done =>
            if Ascii.eqb c ","
            then set_step s stateBeginValue
            else if Ascii.eqb c "]"
            then pop_composite (Array (rev done)) rest s
            else None
        end
  end.

Definition do_stateBeginValue (s : scanner) (c : ascii) : option scanner :=
  if isSpace c then set_step s stateBeginValue
  else if Ascii.eqb c "{"
  then pushParseState s (parseObjectKey [] None) stateBeginStringOrEmpty
  else if Ascii.eqb c "["
  then pushParseState s (parseArrayValue []) stateBeginValueOrEmpty
  else if Ascii.eqb c dquote then set_step s stateInString
  else if Ascii.eqb c "-" then push_lit s c stateNeg
  else if Ascii.eqb c "0" then push_lit s c state0
  else if Ascii.eqb c "t" then set_step s (stateLiteral "rue" (Bool true))
  else if Ascii.eqb c "f" then set_step s (stateLiteral "alse" (Bool false))
  else if Ascii.eqb c "n" then set_step s (stateLiteral "ull" Null)
  else if is_digit19 c then push_lit s c state1
  else None.

Definition do_stateBeginString (s : scanner) (c : ascii) : option scanner :=
  if isSpace c then set_step s stateBeginString
  else if Ascii.eqb c dquote then set_step s stateInString
  else None.

(** A number ends at the first byte that cannot continue it; that byte
    is then read as what follows a value. *)
Definition end_number (s : scanner) (c : ascii) : option scanner :=
  match end_scalar (Number (rev_string (sc_lit s))) s with
  | Some s' => do_stateEndValue s' c
  | None => None
  end.

Definition do_state0 (s : scanner) (c : ascii) : option scanner :=
  if Ascii.eqb c "." then push_lit s c stateDot
  else if Ascii.eqb c "e" || Ascii.eqb c "E" then push_lit s c stateE
  else end_number s c.

Definition do_stateESign (s : scanner) (c : ascii) : option scanner :=
  if is_digit c then push_lit s c stateE0 else None.

Definition scan_step (s : scanner) (c : ascii) : option scanner :=
  match sc_step s with
  | stateBeginValueOrEmpty =>
      if isSpace c then set_step s stateBeginValueOrEmpty
      else if Ascii.eqb c "]" then do_stateEndValue s c
      else do_stateBeginValue s c
  | stateBeginValue => do_stateBeginValue s c
  | stateBeginStringOrEmpty =>
      if isSpace c then set_step s stateBeginStringOrEmpty
      else if Ascii.eqb c "}" then
        match parseState s with
        | parseObjectKey done None :: rest =>
            do_stateEndValue
              (mkScanner (sc_step s) (parseObjectValue done None :: rest)
                 (sc_lit s) (sc_top s)) c
        | _ => None
        end
      else do_stateBeginString s c
  | stateBeginString => do_stateBeginString s c
  | stateEndValue => do_stateEndValue s c
  | stateEndTop => do_stateEndTop s c
  | stateInString =>
      if Ascii.eqb c dquote then end_scalar (Str (rev_string (sc_lit s))) s
      else if Ascii.eqb c backslash then push_lit s c stateInStringEsc
      else if (byte_code c <? 32)%N then None
      else push_lit s c stateInString
  | stateInStringEsc =>
      if Ascii.eqb c "b" || Ascii.eqb c "f" || Ascii.eqb c "n"
         || Ascii.eqb c "r" || Ascii.eqb c "t" || Ascii.eqb c backslash
         || Ascii.eqb c "/" || Ascii.eqb c dquote
      then push_lit s c stateInString
      else if Ascii.eqb c "u" then push_lit s c (stateInStringEscU 0)
      else None
  | stateInStringEscU seen =>
      if is_hex c
      then push_lit s c (if (seen <? 3)%nat then stateInStringEscU (S seen)
                         else stateInString)
      else None
  | stateNeg =>
      if Ascii.eqb c "0" then push_lit s c state0
      else if is_digit19 c then push_lit s c state1
      else None
  | state1 =>
      if is_digit c then push_lit s c state1 else do_state0 s c
  | state0 => do_state0 s c
  | stateDot =>
      if is_digit c then push_lit s c stateDot0 else None
  | stateDot0 =>
      if is_digit c then push_lit s c stateDot0
      else if Ascii.eqb c "e" || Ascii.eqb c "E" then push_lit s c stateE
      else end_number s c
  | stateE =>
      if Ascii.eqb c "+" || Ascii.eqb c "-" then push_lit s c stateESign
      else do_stateESign s c
  | stateESign => do_stateESign s c
  | stateE0 =>
      if is_digit c then push_lit s c stateE0 else end_number s c
  | stateLiteral rest v =>
      match rest with
      | String x EmptyString =>
          if Ascii.eqb c x then end_scalar v s else None
      | String x rest' =>
          if Ascii.eqb c x then set_step s (stateLiteral rest' v) else None
      | EmptyString => None
      end
  end.

Fixpoint scan_bytes (s : scanner) (data : string) : option scanner :=
  match data with
  | EmptyString => Some s
  | String c rest =>
      match scan_step s c with
      | Some s' => scan_bytes s' rest
      | None => None
      end
  end.

(** [scanner.eof]: a number at top level is closed by the end of input. *)
Definition scan_eof (s : scanner) : option Value :=
  match sc_step s with
  | stateEndTop => sc_top s
  | _ =>
      match scan_step s " " with
      | Some s' =>
          match sc_step s' with
          | stateEndTop => sc_top s'
          | _ => None
          end
      | None => None
      end
  end.

(** [checkValid] together with the structure the decoder then walks:
    [None] is a [SyntaxError]. *)
Definition parse (data : string) : option Value :=
  match scan_bytes scan_init data with
  | Some s => scan_eof s
  | None => None
  end.

(** ** encoding/json: decoding literals *)

Definition hex_val (c : ascii) : option Z :=
  let x := Z.of_N (byte_code c) in
  if is_digit c then Some (x - 48)%Z
  else if in_range 97 102 c then Some (x - 97 + 10)%Z
  else if in_range 65 70 c then Some (x - 65 + 10)%Z
  else None.

(** [getu4]: the rune of a [\uXXXX] escape at the head of [s], or [-1]. *)
Definition getu4 (s : string) : Z :=
  match s with
  | String b (String u (String h1 (String h2 (String h3 (String h4 _))))) =>
      if Ascii.eqb b backslash && Ascii.eqb u "u" then
        match hex_val h1, hex_val h2, hex_val h3, hex_val h4 with
        | Some a, Some b, Some c, Some d =>
            (((a * 16 + b) * 16 + c) * 16 + d)%Z
        | _, _, _, _ => (-1)%Z
        end
      else (-1)%Z
  | _ => (-1)%Z
  end.

Definition utf16_IsSurrogate (r : Z) : bool :=
  ((55296 <=? r) && (r <? 57344))%Z.

(** [utf16.DecodeRune] *)
Definition utf16_DecodeRune (r1 r2 : Z) : Z :=
  if ((55296 <=? r1) && (r1 <? 56320) && (56320 <=? r2) && (r2 <? 57344))%Z
  then (Z.lor (Z.shiftl (r1 - 55296) 10) (r2 - 56320) + 65536)%Z
  else utf8.RuneError.

Definition drop_string (n : nat) (s : string) : string :=
  String.substring n (String.length s - n) s.

(** What the walk over a string still owes from an earlier byte: bytes to
    copy as they are, or bytes to pass over. *)
Inductive pending : Type := Ready | Keep (n : nat) | Drop (n : nat).

Definition after (n : nat) (mk : nat -> pending) : pending :=
  match n with O => Ready | S _ => mk n end.

(** [unquoteBytes], on the text between the quotes: [None] where it
    reports failure (which cannot happen on text the scanner accepted). *)
Fixpoint unquote_from (p : pending) (s : string) : option string :=
  match s with
  | EmptyString => Some EmptyString
  | String c r =>
      match p with
      | Keep n => option_map (String c) (unquote_from (after (pred n) Keep) r)
      | Drop n => unquote_from (after (pred n) Drop) r
      | Ready =>
          if Ascii.eqb c backslash then
            match r with
            | EmptyString => None
            | String e _ =>
                let simple (x : ascii) :=
                  option_map (String x) (unquote_from (Drop 1) r) in
                if Ascii.eqb e dquote || Ascii.eqb e backslash
                   || Ascii.eqb e "/" || Ascii.eqb e "'" then simple e
                else if Ascii.eqb e "b" then simple "008"%char
                else if Ascii.eqb e "f" then simple "012"%char
                else if Ascii.eqb e "n" then simple "010"%char
                else if Ascii.eqb e "r" then simple "013"%char
                else if Ascii.eqb e "t" then simple "009"%char
                else if Ascii.eqb e "u" then
                  let rr := getu4 s in
                  if (rr <? 0)%Z then None
                  else
                    let single (x : Z) :=
                      option_map (String.append (utf8.EncodeRune x))
                        (unquote_from (Drop 5) r) in
                    if utf16_IsSurrogate rr then
                      let dec := utf16_DecodeRune rr (getu4 (drop_string 6 s)) in
                      if (dec =? utf8.RuneError)%Z then single utf8.RuneError
                      else option_map (String.append (utf8.EncodeRune dec))
                             (unquote_from (Drop 11) r)
                    else single rr
                else None
            end
          else if Ascii.eqb c dquote || (byte_code c <? 32)%N then None
          else if (byte_code c <? 128)%N then
            option_map (String c) (unquote_from Ready r)
          else
            match utf8.decode_len s with
            | Some n =>
                option_map (String c) (unquote_from (after (pred n) Keep) r)
            | None =>
                option_map (String.append (utf8.EncodeRune utf8.RuneError))
                  (unquote_from Ready r)
            end
      end
  end.

Definition unquote (raw : string) : option string := unquote_from Ready raw.

(** [strconv.ParseInt(lit, 10, 64)] on a number literal the scanner
    accepted: a fraction or an exponent is a failure, and so is a value
    outside the 64-bit range. *)
Fixpoint parse_digits (acc : Z) (s : string) : option Z :=
  match s with
  | EmptyString => Some acc
  | String c r =>
      if is_digit c
      then parse_digits (acc * 10 + (Z.of_N (byte_code c) - 48))%Z r
      else None
  end.

Definition in_int64 (n : Z) : bool :=
  ((-9223372036854775808 <=? n) && (n <=? 9223372036854775807))%Z.

Definition ParseInt (lit : string) : option Z :=
  let signed :=
    match lit with
    | EmptyString => None
    | String c r =>
        if Ascii.eqb c "-" then
          match r with
          | EmptyString => None
          | _ => option_map Z.opp (parse_digits 0 r)
          end
        else parse_digits 0 lit
    end in
  match signed with
  | Some n => if in_int64 n then Some n else None
  | None => None
  end.

(** ** encoding/json: decoding into structs *)

(** [foldName]: ASCII letters to upper case; the two runes outside ASCII
    whose case orbit reaches ASCII, U+017F (long s) and U+212A (Kelvin
    sign), to [S] and [K].  Every other rune outside ASCII folds to a
    rune outside ASCII and is left as it is, which is all a comparison
    with the ASCII field names of this package needs. *)
Fixpoint foldName_from (p : pending) (s : string) : string :=
  match s with
  | EmptyString => EmptyString
  | String c r =>
      match p with
      | Keep n => String c (foldName_from (after (pred n) Keep) r)
      | Drop n => foldName_from (after (pred n) Drop) r
      | Ready =>
          if is_lower c
          then String (ascii_of_N (byte_code c - 32)) (foldName_from Ready r)
          else if (byte_code c <? 128)%N then String c (foldName_from Ready r)
          else
            match s with
            | String "197" (String "191" _) =>
                String "S" (foldName_from (Drop 1) r)
            | String "226" (String "132" (String "170" _)) =>
                String "K" (foldName_from (Drop 2) r)
            | _ =>
                match utf8.decode_len s with
                | Some n => String c (foldName_from (after (pred n) Keep) r)
                | None =>
                    String.append (utf8.EncodeRune utf8.RuneError)
                      (foldName_from Ready r)
                end
            end
      end
  end.

Definition foldName (s : string) : string := foldName_from Ready s.

(** The field a member's key selects: the field of that very name, else
    the first whose folded name equals the folded key. *)
Definition find_field {A : Type} (fields : list (string * A)) (key : string)
  : option A :=
  match List.find (fun f => String.eqb (fst f) key) fields with
  | Some f => Some (snd f)
  | None =>
      option_map snd
        (List.find (fun f => String.eqb (foldName (fst f)) (foldName key))
           fields)
  end.

(** How a JSON value is stored into one field of a [T]; [None] is an
    [UnmarshalTypeError] (or the error of the field's own unmarshaler). *)
Definition setter (T : Type) : Type := Value -> T -> option T.

(** The members of an object, in order, each into the field its key
    selects; members no field answers to are skipped.  The decoder goes
    on after a field's error and reports the first one at the end; the
    package drops the target whenever an error is reported, so the walk
    stops at the first. *)
Fixpoint decode_members {T : Type} (fields : list (string * setter T))
    (ms : list (string * Value)) (t : T) : option T :=
  match ms with
  | [] => Some t
  | (rawkey, v) :: rest =>
      match unquote rawkey with
      | None => None
      | Some key =>
          match find_field fields key with
          | None => decode_members fields rest t
          | Some set =>
              match set v t with
              | Some t' => decode_members fields rest t'
              | None => None
              end
          end
      end
  end.

(** A struct target: [null] leaves it as it is, an object fills it,
    anything else is a type error. *)
Definition decode_struct {T : Type} (fields : list (string * setter T))
  : setter T :=
  fun v t =>
    match v with
    | Null => Some t
    | Object ms => decode_members fields ms t
    | _ => None
    end.

Definition string_field {T : Type} (upd : string -> T -> T) : setter T :=
  fun v t =>
    match v with
    | Null => Some t
    | Str raw => option_map (fun s => upd s t) (unquote raw)
    | _ => None
    end.

Definition bool_field {T : Type} (upd : bool -> T -> T) : setter T :=
  fun v t =>
    match v with
    | Null => Some t
    | Bool b => Some (upd b t)
    | _ => None
    end.

Definition int_field {T : Type} (upd : Z -> T -> T) : setter T :=
  fun v t =>
    match v with
    | Null => Some t
    | Number lit => option_map (fun n => upd n t) (ParseInt lit)
    | _ => None
    end.

Fixpoint decode_elems {T : Type} (elem : Value -> option T) (vs : list Value)
  : option (list T) :=
  match vs with
  | [] => Some []
  | v :: rest =>
      match elem v with
      | Some x => option_map (cons x) (decode_elems elem rest)
      | None => None
      end
  end.

(** A slice target that starts out nil: [null] leaves it nil, an array
    gives one element per array element, in order, each decoded into a
    zero value. *)
Definition decode_slice {T : Type} (elem : Value -> option T) (v : Value)
  : option (list T) :=
  match v with
  | Null => Some []
  | Array vs => decode_elems elem vs
  | _ => None
  end.

(** [json.Unmarshal(data, &t)] for a target [t] with decoder [dec]. *)
Definition Unmarshal {T : Type} (dec : Value -> option T) (data : string)
  : option T :=
  match parse data with
  | Some v => dec v
  | None => None
  end.

(** ** encoding/json: encoding *)

Definition hex_lower (n : N) : ascii :=
  if (n <? 10)%N then ascii_of_N (48 + n) else ascii_of_N (87 + n).

Definition htmlSafe (c : ascii) : bool :=
  in_range 32 127 c
  && negb (Ascii.eqb c dquote || Ascii.eqb c backslash
           || Ascii.eqb c "<" || Ascii.eqb c ">" || Ascii.eqb c "&").

Definition escape_byte (c : ascii) : string :=
  if Ascii.eqb c backslash || Ascii.eqb c dquote then String backslash (str1 c)
  else if Ascii.eqb c "008" then String backslash "b"
  else if Ascii.eqb c "012" then String backslash "f"
  else if Ascii.eqb c "010" then String backslash "n"
  else if Ascii.eqb c "013" then String backslash "r"
  else if Ascii.eqb c "009" then String backslash "t"
  else String backslash
         ("u00" +:+ String (hex_lower (byte_code c / 16))
                      (str1 (hex_lower (byte_code c mod 16)))).

(** The body of [appendString] with HTML escaping on, as [Marshal] has
    it (Go 1.22 and later, where backspace and form feed have short
    escapes). *)
Fixpoint quote_from (p : pending) (s : string) : string :=
  match s with
  | EmptyString => EmptyString
  | String c r =>
      match p with
      | Keep n => String c (quote_from (after (pred n) Keep) r)
      | Drop n => quote_from (after (pred n) Drop) r
      | Ready =>
          if (byte_code c <? 128)%N then
            (if htmlSafe c then str1 c else escape_byte c)
            +:+ quote_from Ready r
          else
            match s with
            | String "226" (String "128" (String "168" _)) =>
                String backslash "u2028" +:+ quote_from (Drop 2) r
            | String "226" (String "128" (String "169" _)) =>
                String backslash "u2029" +:+ quote_from (Drop 2) r
            | _ =>
                match utf8.decode_len s with
                | Some n => String c (quote_from (after (pred n) Keep) r)
                | None => String backslash "ufffd" +:+ quote_from Ready r
                end
            end
      end
  end.

Definition quote (s : string) : string :=
  String dquote (quote_from Ready s +:+ str1 dquote).

(** What the struct encoder does with one field: leave it out
    ([omitempty] on an empty value), write its encoding, or fail. *)
Inductive encoded : Type :=
| Omitted
| Emitted (text : string)
| Unsupported.

Definition omitempty (empty : bool) (e : encoded) : encoded :=
  if empty then Omitted else e.

(** The members written, in field order; [None] when a field fails. *)
Fixpoint emitted_members (fs : list (string * encoded))
  : option (list (string * string)) :=
  match fs with
  | [] => Some []
  | (name, e) :: rest =>
      match e with
      | Unsupported => None
      | Omitted => emitted_members rest
      | Emitted text =>
          option_map (cons (name, text)) (emitted_members rest)
      end
  end.

Fixpoint join (sep : string) (l : list string) : string :=
  match l with
  | [] => EmptyString
  | [x] => x
  | x :: rest => x +:+ sep +:+ join sep rest
  end.

Definition compact_object (ms : list (string * string)) : string :=
  "{" +:+ join "," (List.map (fun m => quote (fst m) +:+ ":" +:+ snd m) ms)
      +:+ "}".

(** [Indent] with an empty prefix, applied to an object whose values are
    strings and numbers. *)
Definition indented_object (indent : string) (ms : list (string * string))
  : string :=
  match ms with
  | [] => "{}"
  | _ =>
      "{" +:+ str1 "010" +:+
      join ("," +:+ str1 "010")
        (List.map (fun m => indent +:+ quote (fst m) +:+ ": " +:+ snd m) ms)
      +:+ str1 "010" +:+ "}"
  end.

(** [json.Marshal] of a struct whose fields encode as [fs]. *)
Definition Marshal (fs : list (string * encoded)) : option string :=
  option_map compact_object (emitted_members fs).

(** [json.MarshalIndent(v, "", indent)] *)
Definition MarshalIndent (fs : list (string * encoded)) (indent : string)
  : option string :=
  option_map (indented_object indent) (emitted_members fs).

End json.

(** ** net/url *)

Module url.

Inductive encoding : Type := encodePathSegment | encodeQueryComponent.

Definition shouldEscape (c : ascii) (mode : encoding) : bool :=
  if is_alnum c then false
  else if Ascii.eqb c "-" || Ascii.eqb c "_" || Ascii.eqb c "."
          || Ascii.eqb c "~" then false
  else if Ascii.eqb c "$" || Ascii.eqb c "&" || Ascii.eqb c "+"
          || Ascii.eqb c ":" || Ascii.eqb c "=" || Ascii.eqb c "@" then
    match mode with
    | encodePathSegment => false
    | encodeQueryComponent => true
    end
  else true.

Definition upperhex (n : N) : ascii :=
  if (n <? 10)%N then ascii_of_N (48 + n) else ascii_of_N (55 + n).

Fixpoint escape (s : string) (mode : encoding) : string :=
  match s with
  | EmptyString => EmptyString
  | String c r =>
      match mode with
      | encodeQueryComponent =>
          if Ascii.eqb c " " then String "+" (escape r mode)
          else if shouldEscape c mode
          then String "%" (String (upperhex (byte_code c / 16))
                             (String (upperhex (byte_code c mod 16))
                                (escape r mode)))
          else String c (escape r mode)
      | encodePathSegment =>
          if shouldEscape c mode
          then String "%" (String (upperhex (byte_code c / 16))
                             (String (upperhex (byte_code c mod 16))
                                (escape r mode)))
          else String c (escape r mode)
      end
  end.

Definition QueryEscape (s : string) : string := escape s encodeQueryComponent.
Definition PathEscape (s : string) : string := escape s encodePathSegment.

(** [url.Values], a [map[string][]string]. *)
Abbreviation Values := (gmap string (list string)).

(** [v.Set(key, value)] *)
Definition Set_ (v : Values) (key value : string) : Values :=
  <[key := [value]]> v.

(** The keys in increasing byte order ([slices.Sorted]). *)
Fixpoint insert_sorted (k : string) (l : list string) : list string :=
  match l with
  | [] => [k]
  | x :: rest =>
      if String.leb k x then k :: l else x :: insert_sorted k rest
  end.

Definition sorted_keys (v : Values) : list string :=
  List.fold_right insert_sorted [] (map_to_list v).*1.

Definition encode_key (v : Values) (k : string) : list string :=
  List.map (fun x => QueryEscape k +:+ "=" +:+ QueryEscape x)
    (default [] (v !! k)).

(** [v.Encode()]: [key=value] pairs joined by [&], keys sorted. *)
Definition Encode (v : Values) : string :=
  json.join "&" (List.concat (List.map (encode_key v) (sorted_keys v))).

End url.

(** ** Standard-library types taken as parameters *)

(** [float64] with what [encoding/json] asks of it, and [time.Time] with
    what [ListInvoices] and the decoder ask of it. *)
Class GoTypes : Type := {
  float64 : Type;
  (** [math.IsNaN(f) || math.IsInf(f, 0)] *)
  float64_unsupported : float64 -> bool;
  (** the JSON number the encoder writes for a finite value *)
  float64_json : float64 -> string;

  Time : Type;
  (** [time.Time{}] *)
  Time_zero : Time;
  Time_IsZero : Time -> bool;
  Time_IsZero_zero : Time_IsZero Time_zero = true;
  (** [t.Format(time.RFC3339)] *)
  Time_Format_RFC3339 : Time -> string;
  (** the RFC 3339 parser of [Time.UnmarshalJSON], given the text
      between the quotes *)
  Time_parse_RFC3339 : string -> option Time;

  (** [context.Context] *)
  Context_ : Type;
  (** whether [http.NewRequestWithContext] accepts the method and URL *)
  http_request_ok : string -> string -> bool
}.

(** ** The package's types ([types.go]) *)

Section Types.
Context `{GoTypes}.

Definition StatusNew : string := "new".
Definition StatusPending : string := "pending".
Definition StatusCompleted : string := "completed".
Definition StatusExpired : string := "expired".
Definition StatusCancelled : string := "cancelled".
Definition StatusPaidPartial : string := "paid_partial".

Definition SortOrderAsc : string := "asc".
Definition SortOrderDesc : string := "desc".

Definition SortByCreatedAt : string := "created_at".
Definition SortByUpdatedAt : string := "updated_at".
Definition SortByFiatAmount : string := "fiat_amount".
Definition SortByCryptoAmount : string := "crypto_amount".

(** Pointer fields are [option]s: [None] is the nil pointer. *)
Record CreateInvoiceRequest : Type := {
  CreateInvoiceRequest_OrderID : string;
  CreateInvoiceRequest_FiatAmount : option float64;
  CreateInvoiceRequest_FiatCurrency : string;
  CreateInvoiceRequest_CryptoAmount : option float64;
  CreateInvoiceRequest_Currency : string;
  CreateInvoiceRequest_AllowedErrorPercent : option Z;
  CreateInvoiceRequest_OrderName : string;
  CreateInvoiceRequest_ExpireMin : option Z;
  CreateInvoiceRequest_CallbackURL : string
}.

Record UpdateInvoiceRequest : Type := {
  UpdateInvoiceRequest_Status : string
}.

Record ListInvoicesParams : Type := {
  ListInvoicesParams_Page : Z;
  ListInvoicesParams_PageSize : Z;
  ListInvoicesParams_Status : string;
  ListInvoicesParams_Currency : string;
  ListInvoicesParams_CreatedAfter : Time;
  ListInvoicesParams_CreatedBefore : Time;
  ListInvoicesParams_SortBy : string;
  ListInvoicesParams_SortOrder : string
}.

Record WebhookSimulateRequest : Type := {
  WebhookSimulateRequest_InvoiceID : string;
  WebhookSimulateRequest_Status : string
}.

Record BlockchainNetwork : Type := {
  BlockchainNetwork_Name : string;
  BlockchainNetwork_Type : string
}.

Record BlockchainDetails : Type := {
  BlockchainDetails_WalletID : string;
  BlockchainDetails_AccountID : string;
  BlockchainDetails_Currency : string;
  BlockchainDetails_BlockchainAddress : string;
  BlockchainDetails_BlockchainNetwork : option BlockchainNetwork;
  BlockchainDetails_QRCode : string
}.

Record Invoice : Type := {
  Invoice_InvoiceID : string;
  Invoice_UserID : string;
  Invoice_ProjectID : string;
  Invoice_OrderID : string;
  Invoice_FiatAmount : float64;
  Invoice_FiatCurrency : string;
  Invoice_Currency : string;
  Invoice_CryptoAmount : float64;
  Invoice_CryptoAmountInUnits : option Z;
  Invoice_ActualCryptoAmountPaid : float64;
  Invoice_ActualCryptoAmountPaidInUnits : Z;
  Invoice_AllowedErrorPercent : Z;
  Invoice_OrderName : string;
  Invoice_ExpireMin : Z;
  Invoice_CallbackURL : string;
  Invoice_Status : string;
  Invoice_CreatedAt : Time;
  Invoice_UpdatedAt : Time;
  Invoice_ExpiresAt : Time;
  Invoice_BlockchainDetails : option BlockchainDetails
}.

Record PaginationInfo : Type := {
  PaginationInfo_CurrentPage : Z;
  PaginationInfo_PageSize : Z;
  PaginationInfo_TotalPages : Z;
  PaginationInfo_TotalRecords : Z;
  PaginationInfo_HasNext : bool;
  PaginationInfo_HasPrevious : bool
}.

Record ListInvoicesResponse : Type := {
  ListInvoicesResponse_Data : list Invoice;
  ListInvoicesResponse_Pagination : PaginationInfo
}.

Record Currency : Type := {
  Currency_CurrencyCode : string;
  Currency_IsCrypto : bool;
  Currency_Precision : Z;
  Currency_IsActive : bool;
  Currency_WalletPattern : string;
  Currency_Network : string;
  Currency_CreatedAt : Time
}.

Record CurrenciesResponse : Type := {
  CurrenciesResponse_Currencies : list Currency
}.

Record RatesResponse : Type := {
  RatesResponse_Rates : gmap string float64
}.

Record WebhookSimulateResponse : Type := {
  WebhookSimulateResponse_Status : string;
  WebhookSimulateResponse_Message : string
}.

Record ErrorResponse : Type := {
  ErrorResponse_Error : string;
  ErrorResponse_Message : string
}.

Record APIError : Type := {
  APIError_StatusCode : Z;
  APIError_ErrorType : string;
  APIError_Message : string
}.

(** [func (e *APIError) Error() string] *)
Definition APIError_Error (e : APIError) : string :=
  if negb (string_is_empty (APIError_Message e))
  then APIError_Message e
  else APIError_ErrorType e.

(** ** Wire forms fixed by the struct tags *)

Definition encode_string (s : string) : json.encoded :=
  json.Emitted (json.quote s).

Definition encode_int (n : Z) : json.encoded :=
  json.Emitted (fmt_d n).

(** The float encoder rejects NaN and the infinities. *)
Definition encode_float64 (f : float64) : json.encoded :=
  if float64_unsupported f then json.Unsupported
  else json.Emitted (float64_json f).

(** A pointer field under [omitempty]: left out when nil, else the
    encoding of what it points to. *)
Definition encode_ptr_omitempty {A : Type} (enc : A -> json.encoded)
    (p : option A) : json.encoded :=
  match p with
  | None => json.Omitted
  | Some x => enc x
  end.

Definition encode_string_omitempty (s : string) : json.encoded :=
  json.omitempty (string_is_empty s) (encode_string s).

Definition CreateInvoiceRequest_json (r : CreateInvoiceRequest)
  : list (string * json.encoded) :=
  [ ("order_id", encode_string (CreateInvoiceRequest_OrderID r));
    ("fiat_amount",
      encode_ptr_omitempty encode_float64 (CreateInvoiceRequest_FiatAmount r));
    ("fiat_currency",
      encode_string_omitempty (CreateInvoiceRequest_FiatCurrency r));
    ("crypto_amount",
      encode_ptr_omitempty encode_float64 (CreateInvoiceRequest_CryptoAmount r));
    ("currency", encode_string (CreateInvoiceRequest_Currency r));
    ("allowed_error_percent",
      encode_ptr_omitempty encode_int
        (CreateInvoiceRequest_AllowedErrorPercent r));
    ("order_name", encode_string_omitempty (CreateInvoiceRequest_OrderName r));
    ("expire_min",
      encode_ptr_omitempty encode_int (CreateInvoiceRequest_ExpireMin r));
    ("callback_url",
      encode_string_omitempty (CreateInvoiceRequest_CallbackURL r)) ].

Definition UpdateInvoiceRequest_json (r : UpdateInvoiceRequest)
  : list (string * json.encoded) :=
  [ ("status", encode_string (UpdateInvoiceRequest_Status r)) ].

Definition WebhookSimulateRequest_json (r : WebhookSimulateRequest)
  : list (string * json.encoded) :=
  [ ("invoice_id", encode_string (WebhookSimulateRequest_InvoiceID r));
    ("status", encode_string (WebhookSimulateRequest_Status r)) ].

Definition ErrorResponse_zero : ErrorResponse :=
  {| ErrorResponse_Error := ""; ErrorResponse_Message := "" |}.

Definition ErrorResponse_fields : list (string * json.setter ErrorResponse) :=
  [ ("error", json.string_field (fun s t =>
       {| ErrorResponse_Error := s;
          ErrorResponse_Message := ErrorResponse_Message t |}));
    ("message", json.string_field (fun s t =>
       {| ErrorResponse_Error := ErrorResponse_Error t;
          ErrorResponse_Message := s |})) ].

(** [var apiError ErrorResponse; json.Unmarshal(data, &apiError)] *)
Definition json_Unmarshal_ErrorResponse (data : string) : option ErrorResponse :=
  json.Unmarshal
    (fun v => json.decode_struct ErrorResponse_fields v ErrorResponse_zero) data.

Definition WebhookSimulateResponse_zero : WebhookSimulateResponse :=
  {| WebhookSimulateResponse_Status := "";
     WebhookSimulateResponse_Message := "" |}.

Definition WebhookSimulateResponse_fields
  : list (string * json.setter WebhookSimulateResponse) :=
  [ ("status", json.string_field (fun s t =>
       {| WebhookSimulateResponse_Status := s;
          WebhookSimulateResponse_Message := WebhookSimulateResponse_Message t |}));
    ("message", json.string_field (fun s t =>
       {| WebhookSimulateResponse_Status := WebhookSimulateResponse_Status t;
          WebhookSimulateResponse_Message := s |})) ].

Definition json_Unmarshal_WebhookSimulateResponse (data : string)
  : option WebhookSimulateResponse :=
  json.Unmarshal
    (fun v => json.decode_struct WebhookSimulateResponse_fields v
                WebhookSimulateResponse_zero) data.

(** A [time.Time] field: [Time.UnmarshalJSON] ignores [null], parses a
    string as it is written (no unquoting) and rejects the rest. *)
Definition time_field {T : Type} (upd : Time -> T -> T) : json.setter T :=
  fun v t =>
    match v with
    | json.Null => Some t
    | json.Str raw => option_map (fun x => upd x t) (Time_parse_RFC3339 raw)
    | _ => None
    end.

Definition Currency_zero : Currency :=
  {| Currency_CurrencyCode := ""; Currency_IsCrypto := false;
     Currency_Precision := 0; Currency_IsActive := false;
     Currency_WalletPattern := ""; Currency_Network := "";
     Currency_CreatedAt := Time_zero |}.

Definition Currency_fields : list (string * json.setter Currency) :=
  [ ("currency_code", json.string_field (fun x t =>
       {| Currency_CurrencyCode := x; Currency_IsCrypto := Currency_IsCrypto t;
          Currency_Precision := Currency_Precision t;
          Currency_IsActive := Currency_IsActive t;
          Currency_WalletPattern := Currency_WalletPattern t;
          Currency_Network := Currency_Network t;
          Currency_CreatedAt := Currency_CreatedAt t |}));
    ("is_crypto", json.bool_field (fun x t =>
       {| Currency_CurrencyCode := Currency_CurrencyCode t;
          Currency_IsCrypto := x;
          Currency_Precision := Currency_Precision t;
          Currency_IsActive := Currency_IsActive t;
          Currency_WalletPattern := Currency_WalletPattern t;
          Currency_Network := Currency_Network t;
          Currency_CreatedAt := Currency_CreatedAt t |}));
    ("precision", json.int_field (fun x t =>
       {| Currency_CurrencyCode := Currency_CurrencyCode t;
          Currency_IsCrypto := Currency_IsCrypto t;
          Currency_Precision := x;
          Currency_IsActive := Currency_IsActive t;
          Currency_WalletPattern := Currency_WalletPattern t;
          Currency_Network := Currency_Network t;
          Currency_CreatedAt := Currency_CreatedAt t |}));
    ("is_active", json.bool_field (fun x t =>
       {| Currency_CurrencyCode := Currency_CurrencyCode t;
          Currency_IsCrypto := Currency_IsCrypto t;
          Currency_Precision := Currency_Precision t;
          Currency_IsActive := x;
          Currency_WalletPattern := Currency_WalletPattern t;
          Currency_Network := Currency_Network t;
          Currency_CreatedAt := Currency_CreatedAt t |}));
    ("wallet_pattern", json.string_field (fun x t =>
       {| Currency_CurrencyCode := Currency_CurrencyCode t;
          Currency_IsCrypto := Currency_IsCrypto t;
          Currency_Precision := Currency_Precision t;
          Currency_IsActive := Currency_IsActive t;
          Currency_WalletPattern := x;
          Currency_Network := Currency_Network t;
          Currency_CreatedAt := Currency_CreatedAt t |}));
    ("network", json.string_field (fun x t =>
       {| Currency_CurrencyCode := Currency_CurrencyCode t;
          Currency_IsCrypto := Currency_IsCrypto t;
          Currency_Precision := Currency_Precision t;
          Currency_IsActive := Currency_IsActive t;
          Currency_WalletPattern := Currency_WalletPattern t;
          Currency_Network := x;
          Currency_CreatedAt := Currency_CreatedAt t |}));
    ("created_at", time_field (fun x t =>
       {| Currency_CurrencyCode := Currency_CurrencyCode t;
          Currency_IsCrypto := Currency_IsCrypto t;
          Currency_Precision := Currency_Precision t;
          Currency_IsActive := Currency_IsActive t;
          Currency_WalletPattern := Currency_WalletPattern t;
          Currency_Network := Currency_Network t;
          Currency_CreatedAt := x |})) ].

(** One element of the currencies array, decoded into a zero [Currency]. *)
Definition decode_Currency (v : json.Value) : option Currency :=
  json.decode_struct Currency_fields v Currency_zero.

(** [var currencies []Currency; json.Unmarshal(data, &currencies)] *)
Definition json_Unmarshal_Currencies (data : string) : option (list Currency) :=
  json.Unmarshal (json.decode_slice decode_Currency) data.

End Types.

(** The decoders of the response bodies that carry floating-point
    numbers, [json.Unmarshal] at the types [Invoice],
    [ListInvoicesResponse] and [RatesResponse]: [None] is an error. *)
Class GoDecoders `{GoTypes} : Type := {
  json_Unmarshal_Invoice : string -> option Invoice;
  json_Unmarshal_ListInvoicesResponse : string -> option ListInvoicesResponse;
  json_Unmarshal_RatesResponse : string -> option RatesResponse
}.

(** ** Errors, the network and the trace of effects *)

Section Client.
Context `{GoDecoders}.

(** What an error made with [fmt.Errorf("...: %w", err)] wraps. *)
Inductive cause : Type :=
| MarshalError
| NewRequestError
| TransportError (msg : string)
| ReadError (msg : string)
| UnmarshalError.

(** The errors the package returns: a wrapped cause, a plain formatted
    message, or a pointer to an [APIError]. *)
Inductive error : Type :=
| Wrapped (context : string) (c : cause)
| Plain (msg : string)
| API (e : APIError).

Definition is_api_error (e : error) : bool :=
  match e with API _ => true | _ => false end.

Definition is_transport_error (e : error) : bool :=
  match e with
  | Wrapped _ (TransportError _) | Wrapped _ (ReadError _) => true
  | _ => false
  end.

(** A Go result pair [(value, err)] in which exactly one side is set. *)
Inductive result (A : Type) : Type :=
| Ok (a : A)
| Fail (e : error).
Arguments Ok {A} a.
Arguments Fail {A} e.

Record Request : Type := {
  Request_ctx : Context_;
  Request_Method : string;
  Request_URL : string;
  Request_Header : list (string * string);
  Request_Body : option string
}.

(** What [io.ReadAll(resp.Body)] returns. *)
Inductive body_read : Type :=
| ReadAll_ok (data : string)
| ReadAll_err (msg : string).

Record Response : Type := {
  Response_StatusCode : Z;
  Response_Body : body_read
}.

(** What [httpClient.Do(req)] returns. *)
Inductive Do_result : Type :=
| Do_ok (resp : Response)
| Do_err (msg : string).

(** The observable effects of the package, oldest first. *)
Inductive event : Type :=
| Stdout (text : string)
| Exchange (req : Request) (res : Do_result).

Definition trace : Type := list event.

(** The network answers a request in view of all that happened before. *)
Record Client : Type := {
  baseURL : string;
  apiKey : string;
  httpClient : trace -> Request -> Do_result
}.

Definition DefaultBaseURL : string := "https://api.itispay.com/api/v1".

(** [NewClient], over the network [net] that Go's default transport
    reaches. *)
Definition NewClient (net : trace -> Request -> Do_result) (key : string)
  : Client :=
  {| baseURL := DefaultBaseURL; apiKey := key; httpClient := net |}.

(** Computations that extend the trace. *)
Definition M (A : Type) : Type := trace -> A * trace.

Definition ret {A : Type} (a : A) : M A := fun tr => (a, tr).

Definition bind {A B : Type} (m : M A) (k : A -> M B) : M B :=
  fun tr => let (a, tr') := m tr in k a tr'.

Notation "x <- m ;; k" := (bind m (fun x => k))
  (at level 100, m at next level, right associativity).

(** [fmt.Printf] of an already formatted text. *)
Definition print (text : string) : M unit :=
  fun tr => (tt, tr ++ [Stdout text]).

(** [c.httpClient.Do(req)] *)
Definition Do (c : Client) (req : Request) : M Do_result :=
  fun tr => let res := httpClient c tr req in (res, tr ++ [Exchange req res]).

(** The values passed as [body interface{}]. *)
Inductive payload : Type :=
| CreateInvoicePayload (r : CreateInvoiceRequest)
| UpdateInvoicePayload (r : UpdateInvoiceRequest)
| WebhookSimulatePayload (r : WebhookSimulateRequest).

Definition payload_json (p : payload) : list (string * json.encoded) :=
  match p with
  | CreateInvoicePayload r => CreateInvoiceRequest_json r
  | UpdateInvoicePayload r => UpdateInvoiceRequest_json r
  | WebhookSimulatePayload r => WebhookSimulateRequest_json r
  end.

Definition json_Marshal (p : payload) : option string :=
  json.Marshal (payload_json p).

(** [fmt.Errorf("HTTP %d: %s", resp.StatusCode, string(respBody))] *)
Definition Errorf_HTTP (status : Z) (body : string) : error :=
  Plain ("HTTP " +:+ fmt_d status +:+ ": " +:+ body).

(** The headers [doRequest] sets, under the canonical names [Header.Set]
    stores them by. *)
Definition request_headers (c : Client) : list (string * string) :=
  ("Content-Type", "application/json")
  :: (if negb (string_is_empty (apiKey c)) then [("Api-Key", apiKey c)] else []).

(** The request [doRequest] builds once the body is serialized. *)
Definition new_request (c : Client) (ctx : Context_) (method path : string)
    (reqBody : option string) : Request :=
  {| Request_ctx := ctx;
     Request_Method := method;
     Request_URL := baseURL c +:+ path;
     Request_Header := request_headers c;
     Request_Body := reqBody |}.

(** ** [doRequest] *)

Definition doRequest (c : Client) (ctx : Context_) (method path : string)
    (body : option payload) : M (result string) :=
  let marshalled :=
    match body with
    | None => Some None
    | Some p => option_map Some (json_Marshal p)
    end in
  match marshalled with
  | None => ret (Fail (Wrapped "failed to marshal request body" MarshalError))
  | Some reqBody =>
      if negb (http_request_ok method (baseURL c +:+ path))
      then ret (Fail (Wrapped "failed to create request" NewRequestError))
      else
        let req := new_request c ctx method path reqBody in
        res <- Do c req ;;
        match res with
        | Do_err msg =>
            ret (Fail (Wrapped "failed to execute request" (TransportError msg)))
        | Do_ok resp =>
            match Response_Body resp with
            | ReadAll_err msg =>
                ret (Fail (Wrapped "failed to read response body"
                             (ReadError msg)))
            | ReadAll_ok respBody =>
                if (400 <=? Response_StatusCode resp)%Z then
                  match json_Unmarshal_ErrorResponse respBody with
                  | None =>
                      ret (Fail (Errorf_HTTP (Response_StatusCode resp)
                                   respBody))
                  | Some apiError =>
                      ret (Fail (API
                        {| APIError_StatusCode := Response_StatusCode resp;
                           APIError_ErrorType := ErrorResponse_Error apiError;
                           APIError_Message := ErrorResponse_Message apiError |}))
                  end
                else ret (Ok respBody)
            end
        end
  end.

(** The tail every endpoint shares: pass an error of [doRequest] on,
    else decode the body, wrapping a decoding failure. *)
Definition decode_response {A : Type} (r : result string)
    (unmarshal : string -> option A) (context : string) : result A :=
  match r with
  | Fail e => Fail e
  | Ok respBody =>
      match unmarshal respBody with
      | None => Fail (Wrapped context UnmarshalError)
      | Some a => Ok a
      end
  end.

(** ** The endpoint methods *)

Definition newline : string := str1 "010".

(** The text [CreateInvoice] prints: [MarshalIndent]'s error is dropped,
    and the nil slice it then leaves prints as the empty string. *)
Definition CreateInvoice_debug (req : CreateInvoiceRequest) : string :=
  let reqJSON :=
    default "" (json.MarshalIndent (CreateInvoiceRequest_json req) "  ") in
  "DEBUG: Creating invoice with request:" +:+ newline +:+ reqJSON +:+ newline.

Definition CreateInvoice (c : Client) (ctx : Context_)
    (req : CreateInvoiceRequest) : M (result Invoice) :=
  _ <- print (CreateInvoice_debug req) ;;
  r <- doRequest c ctx "POST" "/invoices" (Some (CreateInvoicePayload req)) ;;
  ret (decode_response r json_Unmarshal_Invoice
         "failed to unmarshal invoice response").

(** The path [GetInvoice] and [UpdateInvoiceStatus] request. *)
Definition invoice_path (invoiceID : string) : string :=
  "/invoices/" +:+ invoiceID.

Definition GetInvoice (c : Client) (ctx : Context_) (invoiceID : string)
  : M (result Invoice) :=
  r <- doRequest c ctx "GET" (invoice_path invoiceID) None ;;
  ret (decode_response r json_Unmarshal_Invoice
         "failed to unmarshal invoice response").

(** The query parameters [ListInvoices] sets, in the order it sets them. *)
Definition ListInvoices_query (params : ListInvoicesParams) : url.Values :=
  let queryParams : url.Values := ∅ in
  let queryParams :=
    if (0 <? ListInvoicesParams_Page params)%Z
    then url.Set_ queryParams "page" (fmt_d (ListInvoicesParams_Page params))
    else queryParams in
  let queryParams :=
    if (0 <? ListInvoicesParams_PageSize params)%Z
    then url.Set_ queryParams "page_size"
           (fmt_d (ListInvoicesParams_PageSize params))
    else queryParams in
  let queryParams :=
    if negb (string_is_empty (ListInvoicesParams_Status params))
    then url.Set_ queryParams "status" (ListInvoicesParams_Status params)
    else queryParams in
  let queryParams :=
    if negb (string_is_empty (ListInvoicesParams_Currency params))
    then url.Set_ queryParams "currency" (ListInvoicesParams_Currency params)
    else queryParams in
  let queryParams :=
    if negb (Time_IsZero (ListInvoicesParams_CreatedAfter params))
    then url.Set_ queryParams "created_after"
           (Time_Format_RFC3339 (ListInvoicesParams_CreatedAfter params))
    else queryParams in
  let queryParams :=
    if negb (Time_IsZero (ListInvoicesParams_CreatedBefore params))
    then url.Set_ queryParams "created_before"
           (Time_Format_RFC3339 (ListInvoicesParams_CreatedBefore params))
    else queryParams in
  let queryParams :=
    if negb (string_is_empty (ListInvoicesParams_SortBy params))
    then url.Set_ queryParams "sort_by" (ListInvoicesParams_SortBy params)
    else queryParams in
  let queryParams :=
    if negb (string_is_empty (ListInvoicesParams_SortOrder params))
    then url.Set_ queryParams "sort_order" (ListInvoicesParams_SortOrder params)
    else queryParams in
  queryParams.

Definition ListInvoices_path (params : ListInvoicesParams) : string :=
  let queryParams := ListInvoices_query params in
  let path := "/invoices" in
  if (0 <? size queryParams)%nat
  then path +:+ "?" +:+ url.Encode queryParams
  else path.

Definition ListInvoices (c : Client) (ctx : Context_)
    (params : ListInvoicesParams) : M (result ListInvoicesResponse) :=
  r <- doRequest c ctx "GET" (ListInvoices_path params) None ;;
  ret (decode_response r json_Unmarshal_ListInvoicesResponse
         "failed to unmarshal invoices response").

Definition GetCurrencies (c : Client) (ctx : Context_)
  : M (result CurrenciesResponse) :=
  r <- doRequest c ctx "GET" "/currencies" None ;;
  ret (decode_response r
         (fun respBody =>
            option_map
              (fun currencies =>
                 {| CurrenciesResponse_Currencies := currencies |})
              (json_Unmarshal_Currencies respBody))
         "failed to unmarshal currencies response").

Definition GetRates (c : Client) (ctx : Context_) : M (result RatesResponse) :=
  r <- doRequest c ctx "GET" "/rates" None ;;
  ret (decode_response r json_Unmarshal_RatesResponse
         "failed to unmarshal rates response").

Definition UpdateInvoiceStatus (c : Client) (ctx : Context_)
    (invoiceID status : string) : M (result Invoice) :=
  let req := {| UpdateInvoiceRequest_Status := status |} in
  r <- doRequest c ctx "PATCH" (invoice_path invoiceID)
         (Some (UpdateInvoicePayload req)) ;;
  ret (decode_response r json_Unmarshal_Invoice
         "failed to unmarshal invoice response").

Definition SimulateWebhook (c : Client) (ctx : Context_)
    (invoiceID status : string) : M (result WebhookSimulateResponse) :=
  let req := {| WebhookSimulateRequest_InvoiceID := invoiceID;
                WebhookSimulateRequest_Status := status |} in
  r <- doRequest c ctx "POST" "/webhooks/simulate"
         (Some (WebhookSimulatePayload req)) ;;
  ret (decode_response r json_Unmarshal_WebhookSimulateResponse
         "failed to unmarshal webhook simulate response").

(** ** The seven endpoint methods as one family *)

Inductive call : Type :=
| Call_CreateInvoice (req : CreateInvoiceRequest)
| Call_GetInvoice (invoiceID : string)
| Call_ListInvoices (params : ListInvoicesParams)
| Call_GetCurrencies
| Call_GetRates
| Call_UpdateInvoiceStatus (invoiceID status : string)
| Call_SimulateWebhook (invoiceID status : string).

Definition call_result (k : call) : Type :=
  match k with
  | Call_CreateInvoice _ | Call_GetInvoice _ | Call_UpdateInvoiceStatus _ _ =>
      Invoice
  | Call_ListInvoices _ => ListInvoicesResponse
  | Call_GetCurrencies => CurrenciesResponse
  | Call_GetRates => RatesResponse
  | Call_SimulateWebhook _ _ => WebhookSimulateResponse
  end.

Definition invoke (c : Client) (ctx : Context_) (k : call)
  : M (result (call_result k)) :=
  match k return M (result (call_result k)) with
  | Call_CreateInvoice req => CreateInvoice c ctx req
  | Call_GetInvoice invoiceID => GetInvoice c ctx invoiceID
  | Call_ListInvoices params => ListInvoices c ctx params
  | Call_GetCurrencies => GetCurrencies c ctx
  | Call_GetRates => GetRates c ctx
  | Call_UpdateInvoiceStatus invoiceID status =>
      UpdateInvoiceStatus c ctx invoiceID status
  | Call_SimulateWebhook invoiceID status =>
      SimulateWebhook c ctx invoiceID status
  end.

(** What each endpoint hands to [doRequest], and what it prints before. *)
Definition call_method (k : call) : string :=
  match k with
  | Call_CreateInvoice _ | Call_SimulateWebhook _ _ => "POST"
  | Call_UpdateInvoiceStatus _ _ => "PATCH"
  | _ => "GET"
  end.

Definition call_path (k : call) : string :=
  match k with
  | Call_CreateInvoice _ => "/invoices"
  | Call_GetInvoice invoiceID => invoice_path invoiceID
  | Call_ListInvoices params => ListInvoices_path params
  | Call_GetCurrencies => "/currencies"
  | Call_GetRates => "/rates"
  | Call_UpdateInvoiceStatus invoiceID _ => invoice_path invoiceID
  | Call_SimulateWebhook _ _ => "/webhooks/simulate"
  end.

Definition call_body (k : call) : option payload :=
  match k with
  | Call_CreateInvoice req => Some (CreateInvoicePayload req)
  | Call_UpdateInvoiceStatus _ status =>
      Some (UpdateInvoicePayload {| UpdateInvoiceRequest_Status := status |})
  | Call_SimulateWebhook invoiceID status =>
      Some (WebhookSimulatePayload
              {| WebhookSimulateRequest_InvoiceID := invoiceID;
                 WebhookSimulateRequest_Status := status |})
  | _ => None
  end.

Definition call_prints (k : call) : list event :=
  match k with
  | Call_CreateInvoice req => [Stdout (CreateInvoice_debug req)]
  | _ => []
  end.

(** Run from trace [tr], the computation [m] ended on an HTTP exchange
    that was answered with [status] and a body read in full as [body]. *)
Definition answered {A : Type} (m : M A) (tr : trace) (status : Z)
    (body : string) : Prop :=
  exists (pre : list event) (req : Request),
    snd (m tr) =
    tr ++ pre ++
      [Exchange req
         (Do_ok {| Response_StatusCode := status;
                   Response_Body := ReadAll_ok body |})].

(** [doRequest] in two halves, for reasoning: what happens before the
    network is reached, and what is made of the network's answer. *)
Definition prepare (c : Client) (ctx : Context_) (method path : string)
    (body : option payload) : result Request :=
  match body with
  | Some p =>
      match json_Marshal p with
      | None => Fail (Wrapped "failed to marshal request body" MarshalError)
      | Some data =>
          if http_request_ok method (baseURL c +:+ path)
          then Ok (new_request c ctx method path (Some data))
          else Fail (Wrapped "failed to create request" NewRequestError)
      end
  | None =>
      if http_request_ok method (baseURL c +:+ path)
      then Ok (new_request c ctx method path None)
      else Fail (Wrapped "failed to create request" NewRequestError)
  end.

Definition interpret (res : Do_result) : result string :=
  match res with
  | Do_err msg => Fail (Wrapped "failed to execute request" (TransportError msg))
  | Do_ok resp =>
      match Response_Body resp with
      | ReadAll_err msg =>
          Fail (Wrapped "failed to read response body" (ReadError msg))
      | ReadAll_ok respBody =>
          if (400 <=? Response_StatusCode resp)%Z then
            match json_Unmarshal_ErrorResponse respBody with
            | None => Fail (Errorf_HTTP (Response_StatusCode resp) respBody)
            | Some apiError =>
                Fail (API
                  {| APIError_StatusCode := Response_StatusCode resp;
                     APIError_ErrorType := ErrorResponse_Error apiError;
                     APIError_Message := ErrorResponse_Message apiError |})
            end
          else Ok respBody
      end
  end.

(** The events [doRequest] adds to the trace. *)
Definition doRequest_events (c : Client) (ctx : Context_)
    (method path : string) (body : option payload) (tr : trace)
  : list event :=
  match prepare c ctx method path body with
  | Ok req => [Exchange req (httpClient c tr req)]
  | Fail _ => []
  end.

(** The URLs requested in a trace, oldest first. *)
Definition sent_urls (evs : list event) : list string :=
  List.concat
    (List.map (fun ev => match ev with
                         | Exchange req _ => [Request_URL req]
                         | Stdout _ => []
                         end) evs).

(** The answer an exchange at the end of [evs] received. *)
Definition last_answer (evs : list event) : option Do_result :=
  match last evs with
  | Some (Exchange _ res) => Some res
  | _ => None
  end.

(** ** The query string of [ListInvoices], spelled out *)

(** A candidate parameter: whether it is sent, its key and its value. *)
Definition query_pairs (ps : list (bool * string * string)) : list string :=
  List.map (fun p => url.QueryEscape (snd (fst p)) +:+ "=" +:+ url.QueryEscape (snd p))
    (List.filter (fun p => fst (fst p)) ps).

Definition path_with_query (ps : list (bool * string * string)) : string :=
  match query_pairs ps with
  | [] => "/invoices"
  | pairs => "/invoices" +:+ "?" +:+ json.join "&" pairs
  end.

Definition param_page (p : ListInvoicesParams) :=
  ((0 <? ListInvoicesParams_Page p)%Z, "page", fmt_d (ListInvoicesParams_Page p)).
Definition param_page_size (p : ListInvoicesParams) :=
  ((0 <? ListInvoicesParams_PageSize p)%Z, "page_size",
   fmt_d (ListInvoicesParams_PageSize p)).
Definition param_status (p : ListInvoicesParams) :=
  (negb (string_is_empty (ListInvoicesParams_Status p)), "status",
   ListInvoicesParams_Status p).
Definition param_currency (p : ListInvoicesParams) :=
  (negb (string_is_empty (ListInvoicesParams_Currency p)), "currency",
   ListInvoicesParams_Currency p).
Definition param_created_after (p : ListInvoicesParams) :=
  (negb (Time_IsZero (ListInvoicesParams_CreatedAfter p)), "created_after",
   Time_Format_RFC3339 (ListInvoicesParams_CreatedAfter p)).
Definition param_created_before (p : ListInvoicesParams) :=
  (negb (Time_IsZero (ListInvoicesParams_CreatedBefore p)), "created_before",
   Time_Format_RFC3339 (ListInvoicesParams_CreatedBefore p)).
Definition param_sort_by (p : ListInvoicesParams) :=
  (negb (string_is_empty (ListInvoicesParams_SortBy p)), "sort_by",
   ListInvoicesParams_SortBy p).
Definition param_sort_order (p : ListInvoicesParams) :=
  (negb (string_is_empty (ListInvoicesParams_SortOrder p)), "sort_order",
   ListInvoicesParams_SortOrder p).

(** The path as the specification words it: the parameters in the order
    page, page_size, status, currency, created_after, created_before,
    sort_by, sort_order. *)
Definition ListInvoices_path_in_precedence (p : ListInvoicesParams) : string :=
  path_with_query
    [ param_page p; param_page_size p; param_status p; param_currency p;
      param_created_after p; param_created_before p; param_sort_by p;
      param_sort_order p ].

(** The same parameters in increasing order of their keys. *)
Definition ListInvoices_path_by_key (p : ListInvoicesParams) : string :=
  path_with_query
    [ param_created_after p; param_created_before p; param_currency p;
      param_page p; param_page_size p; param_sort_by p; param_sort_order p;
      param_status p ].

(** The zero value [ListInvoicesParams{}]. *)
Definition ListInvoicesParams_zero : ListInvoicesParams :=
  {| ListInvoicesParams_Page := 0; ListInvoicesParams_PageSize := 0;
     ListInvoicesParams_Status := ""; ListInvoicesParams_Currency := "";
     ListInvoicesParams_CreatedAfter := Time_zero;
     ListInvoicesParams_CreatedBefore := Time_zero;
     ListInvoicesParams_SortBy := ""; ListInvoicesParams_SortOrder := "" |}.

End Client.

Arguments Ok {A} a.
Arguments Fail {A} e.

(** ** An example environment

    A small standard library and network to run the package on: amounts
    are whole numbers (which [float64] holds exactly, and the encoder
    writes in plain decimal, below 2^53) or NaN; times are UTC civil
    times to the second; a URL is accepted when it holds no control
    byte; no body is accepted as an [Invoice], a [ListInvoicesResponse]
    or a [RatesResponse]. *)

Module Example.

Inductive amount : Type :=
| Whole (n : Z)
| NaN.

Definition amount_unsupported (a : amount) : bool :=
  match a with Whole _ => false | NaN => true end.

Definition amount_json (a : amount) : string :=
  match a with Whole n => fmt_d n | NaN => "NaN" end.

Record utc : Type := {
  year : Z; month : Z; day : Z; hour : Z; minute : Z; second : Z
}.

Definition utc_zero : utc :=
  {| year := 1; month := 1; day := 1; hour := 0; minute := 0; second := 0 |}.

Definition utc_IsZero (t : utc) : bool :=
  ((year t =? 1) && (month t =? 1) && (day t =? 1)
   && (hour t =? 0) && (minute t =? 0) && (second t =? 0))%Z.

Fixpoint zeros (n : nat) : string :=
  match n with O => EmptyString | S k => String "0" (zeros k) end.

Definition pad (width : nat) (n : Z) : string :=
  let digits := fmt_d n in
  zeros (width - String.length digits) +:+ digits.

Definition utc_Format (t : utc) : string :=
  pad 4 (year t) +:+ "-" +:+ pad 2 (month t) +:+ "-" +:+ pad 2 (day t)
  +:+ "T" +:+ pad 2 (hour t) +:+ ":" +:+ pad 2 (minute t) +:+ ":"
  +:+ pad 2 (second t) +:+ "Z".

Definition days_in (y m : Z) : Z :=
  if (m =? 2)%Z then
    if ((y mod 4 =? 0) && (negb (y mod 100 =? 0) || (y mod 400 =? 0)))%Z
    then 29 else 28
  else if ((m =? 4) || (m =? 6) || (m =? 9) || (m =? 11))%Z then 30 else 31.

Definition field (from len : nat) (s : string) : option Z :=
  json.parse_digits 0 (String.substring from len s).

(** Texts of the form [YYYY-MM-DDTHH:MM:SSZ] only. *)
Definition utc_parse (s : string) : option utc :=
  if negb (String.length s =? 20)%nat then None
  else if negb (String.eqb (String.substring 4 1 s) "-"
                && String.eqb (String.substring 7 1 s) "-"
                && String.eqb (String.substring 10 1 s) "T"
                && String.eqb (String.substring 13 1 s) ":"
                && String.eqb (String.substring 16 1 s) ":"
                && String.eqb (String.substring 19 1 s) "Z") then None
  else
    match field 0 4 s, field 5 2 s, field 8 2 s,
          field 11 2 s, field 14 2 s, field 17 2 s with
    | Some y, Some mo, Some d, Some h, Some mi, Some sec =>
        if ((1 <=? mo) && (mo <=? 12) && (1 <=? d) && (d <=? days_in y mo)
            && (h <? 24) && (mi <? 60) && (sec <? 60))%Z
        then Some {| year := y; month := mo; day := d;
                     hour := h; minute := mi; second := sec |}
        else None
    | _, _, _, _, _, _ => None
    end.

Fixpoint has_control_byte (s : string) : bool :=
  match s with
  | EmptyString => false
  | String c r =>
      (byte_code c <? 32)%N || (byte_code c =? 127)%N || has_control_byte r
  end.

Definition types : GoTypes :=
  {| float64 := amount;
     float64_unsupported := amount_unsupported;
     float64_json := amount_json;
     Time := utc;
     Time_zero := utc_zero;
     Time_IsZero := utc_IsZero;
     Time_IsZero_zero := eq_refl;
     Time_Format_RFC3339 := utc_Format;
     Time_parse_RFC3339 := utc_parse;
     Context_ := unit;
     http_request_ok := fun _ u => negb (has_control_byte u) |}.

Definition decoders : @GoDecoders types :=
  {| json_Unmarshal_Invoice := fun _ => None;
     json_Unmarshal_ListInvoicesResponse := fun _ => None;
     json_Unmarshal_RatesResponse := fun _ => None |}.

(** A network that answers every request with [status] and [body]. *)
Definition server (status : Z) (body : string)
  : @trace types -> @Request types -> Do_result :=
  fun _ _ =>
    Do_ok {| Response_StatusCode := status; Response_Body := ReadAll_ok body |}.

Definition client (status : Z) (body : string) : @Client types :=
  NewClient (server status body) "secret".

(** A string between double quotes. *)
Definition q (s : string) : string := String dquote (s +:+ str1 dquote).

(** [{"error":"invalid_key","message":"API key is invalid"}] *)
Definition invalid_key_body : string :=
  "{" +:+ q "error" +:+ ":" +:+ q "invalid_key" +:+ ","
      +:+ q "message" +:+ ":" +:+ q "API key is invalid" +:+ "}".

(** [[{"currency_code":"BTC","is_crypto":true,"precision":8,
       "created_at":"2024-02-29T12:00:00Z"},{"currency_code":"EUR"}]] *)
Definition currencies_body : string :=
  "[{" +:+ q "currency_code" +:+ ":" +:+ q "BTC" +:+ ","
       +:+ q "is_crypto" +:+ ":true,"
       +:+ q "precision" +:+ ":8,"
       +:+ q "created_at" +:+ ":" +:+ q "2024-02-29T12:00:00Z" +:+ "},{"
       +:+ q "currency_code" +:+ ":" +:+ q "EUR" +:+ "}]".

Definition request_without_amount : @CreateInvoiceRequest types :=
  {| CreateInvoiceRequest_OrderID := "ORDER-1";
     CreateInvoiceRequest_FiatAmount := None;
     CreateInvoiceRequest_FiatCurrency := "";
     CreateInvoiceRequest_CryptoAmount := None;
     CreateInvoiceRequest_Currency := "BTC";
     CreateInvoiceRequest_AllowedErrorPercent := Some 0%Z;
     CreateInvoiceRequest_OrderName := "";
     CreateInvoiceRequest_ExpireMin := None;
     CreateInvoiceRequest_CallbackURL := "" |}.

Definition request_with_NaN : @CreateInvoiceRequest types :=
  {| CreateInvoiceRequest_OrderID := "ORDER-2";
     CreateInvoiceRequest_FiatAmount := Some (NaN : @float64 types);
     CreateInvoiceRequest_FiatCurrency := "EUR";
     CreateInvoiceRequest_CryptoAmount := None;
     CreateInvoiceRequest_Currency := "BTC";
     CreateInvoiceRequest_AllowedErrorPercent := None;
     CreateInvoiceRequest_OrderName := "";
     CreateInvoiceRequest_ExpireMin := None;
     CreateInvoiceRequest_CallbackURL := "" |}.

Definition page_and_currency : @ListInvoicesParams types :=
  {| ListInvoicesParams_Page := 1; ListInvoicesParams_PageSize := 0;
     ListInvoicesParams_Status := ""; ListInvoicesParams_Currency := "BTC";
     ListInvoicesParams_CreatedAfter := (utc_zero : @Time types);
     ListInvoicesParams_CreatedBefore := (utc_zero : @Time types);
     ListInvoicesParams_SortBy := ""; ListInvoicesParams_SortOrder := "" |}.

End Example.

(** ** Observing a call *)

Section Observations.
Context `{GoDecoders}.

(** The events a computation adds to the trace it starts from. *)
Definition new_events {A : Type} (m : M A) (tr : trace) : list event :=
  drop (length tr) (snd (m tr)).

(** The HTTP exchanges among some events, oldest first. *)
Definition exchanges (evs : list event) : list (Request * Do_result) :=
  List.concat
    (List.map (fun ev => match ev with
                         | Exchange req res => [(req, res)]
                         | Stdout _ => []
                         end) evs).

(** What was written to standard output among some events. *)
Definition stdout_texts (evs : list event) : list string :=
  List.concat
    (List.map (fun ev => match ev with
                         | Stdout text => [text]
                         | Exchange _ _ => []
                         end) evs).

(** Run from trace [tr], the computation [m] ended on an HTTP exchange
    whose outcome was [res]. *)
Definition ended_with {A : Type} (m : M A) (tr : trace) (res : Do_result)
  : Prop :=
  exists (pre : list event) (req : Request),
    snd (m tr) = tr ++ pre ++ [Exchange req res].

(** The decoder each endpoint applies to a successful body, and the
    text it wraps a decoding failure in. *)
Definition call_decoder (k : call) : string -> option (call_result k) :=
  match k return string -> option (call_result k) with
  | Call_CreateInvoice _ | Call_GetInvoice _ | Call_UpdateInvoiceStatus _ _ =>
      json_Unmarshal_Invoice
  | Call_ListInvoices _ => json_Unmarshal_ListInvoicesResponse
  | Call_GetCurrencies =>
      fun respBody =>
        option_map
          (fun currencies => {| CurrenciesResponse_Currencies := currencies |})
          (json_Unmarshal_Currencies respBody)
  | Call_GetRates => json_Unmarshal_RatesResponse
  | Call_SimulateWebhook _ _ => json_Unmarshal_WebhookSimulateResponse
  end.

Definition call_context (k : call) : string :=
  match k with
  | Call_CreateInvoice _ | Call_GetInvoice _ | Call_UpdateInvoiceStatus _ _ =>
      "failed to unmarshal invoice response"
  | Call_ListInvoices _ => "failed to unmarshal invoices response"
  | Call_GetCurrencies => "failed to unmarshal currencies response"
  | Call_GetRates => "failed to unmarshal rates response"
  | Call_SimulateWebhook _ _ => "failed to unmarshal webhook simulate response"
  end.

(** Whether an amount pointer is set to a value the encoder refuses. *)
Definition amount_unsupported (a : option float64) : bool :=
  match a with
  | Some f => float64_unsupported f
  | None => false
  end.

(** The keys of a [CreateInvoiceRequest] in the order of its fields,
    each with whether the field is written. *)
Definition CreateInvoiceRequest_keys (r : CreateInvoiceRequest)
  : list (bool * string) :=
  [ (true, "order_id");
    (bool_decide (CreateInvoiceRequest_FiatAmount r <> None), "fiat_amount");
    (negb (string_is_empty (CreateInvoiceRequest_FiatCurrency r)),
     "fiat_currency");
    (bool_decide (CreateInvoiceRequest_CryptoAmount r <> None),
     "crypto_amount");
    (true, "currency");
    (bool_decide (CreateInvoiceRequest_AllowedErrorPercent r <> None),
     "allowed_error_percent");
    (negb (string_is_empty (CreateInvoiceRequest_OrderName r)), "order_name");
    (bool_decide (CreateInvoiceRequest_ExpireMin r <> None), "expire_min");
    (negb (string_is_empty (CreateInvoiceRequest_CallbackURL r)),
     "callback_url") ].

End Observations.

(** The bytes [QueryEscape] can produce: unreserved characters, [+] for
    a space, and [%] with upper-case hexadecimal digits. *)
Definition query_safe (c : ascii) : bool :=
  is_alnum c || Ascii.eqb c "-" || Ascii.eqb c "_" || Ascii.eqb c "."
  || Ascii.eqb c "~" || Ascii.eqb c "+" || Ascii.eqb c "%".

Fixpoint all_bytes (ok : ascii -> bool) (s : string) : bool :=
  match s with
  | EmptyString => true
  | String c r => ok c && all_bytes ok r
  end.

(** Whether the encoder writes a field. *)
Definition is_written (e : json.encoded) : bool :=
  match e with json.Omitted => false | _ => true end.

(** How often a byte occurs in a string. *)
Fixpoint count_byte (c : ascii) (s : string) : nat :=
  match s with
  | EmptyString => O
  | String x r => (if Ascii.eqb x c then 1 else 0) + count_byte c r
  end.

(** What the encoder writes for an ASCII byte. *)
Definition quoted_byte (c : ascii) : string :=
  if json.htmlSafe c then str1 c else json.escape_byte c.

(** The compact object with one and with two string members, in the
    bytes the encoder writes it with. *)
Definition object1 (k v : string) : string :=
  String "{" (String dquote (json.quote_from json.Ready k +:+ String dquote
    (String ":" (String dquote (json.quote_from json.Ready v +:+
       String dquote "}"))))).

Definition object2 (k1 v1 k2 v2 : string) : string :=
  String "{" (String dquote (json.quote_from json.Ready k1 +:+ String dquote
    (String ":" (String dquote (json.quote_from json.Ready v1 +:+
       String dquote (String "," (String dquote
         (json.quote_from json.Ready k2 +:+ String dquote
            (String ":" (String dquote (json.quote_from json.Ready v2 +:+
               String dquote "}"))))))))))).

(** Well-formed UTF-8, as [DecodeRune] sees it: at the start of a rune
    the bytes ahead must start a well-formed encoding, whose remaining
    bytes are then passed over. *)
Fixpoint utf8_valid_from (skip : nat) (s : string) : bool :=
  match s with
  | EmptyString => true
  | String c r =>
      match skip with
      | S k => utf8_valid_from k r
      | O =>
          match utf8.decode_len s with
          | Some n => utf8_valid_from (pred n) r
          | None => false
          end
      end
  end.

Definition utf8_valid (s : string) : bool := utf8_valid_from 0 s.

(** Where the encoder copies a rune of two, three or four bytes. *)
Definition is_separator (s : string) : bool :=
  match s with
  | String a (String b (String d _)) =>
      Ascii.eqb a "226" && Ascii.eqb b "128"
      && (Ascii.eqb d "168" || Ascii.eqb d "169")
  | _ => false
  end.

(** A byte of a rune of several bytes. *)
Definition is_high (c : ascii) : bool := negb (byte_code c <? 128)%N.


(** ** Further scenarios on the example environment *)

Module Scenario.

(** A network that refuses every connection. *)
Definition refusing (msg : string) : @Client Example.types :=
  {| baseURL := DefaultBaseURL; apiKey := "";
     httpClient := fun _ _ => Do_err msg |}.

(** A network whose responses break off while the body is read. *)
Definition truncating (status : Z) (msg : string) : @Client Example.types :=
  {| baseURL := DefaultBaseURL; apiKey := "secret";
     httpClient := fun _ _ =>
       Do_ok {| Response_StatusCode := status;
                Response_Body := ReadAll_err msg |} |}.

(** [{"status":"ok","message":"sent"}] *)
Definition webhook_ok_body : string :=
  json.compact_object
    [("status", json.quote "ok"); ("message", json.quote "sent")].

(** [{"code":502,"detail":"bad gateway"}]: an error body of a proxy, with
    neither of the members the package reads. *)
Definition gateway_body : string :=
  json.compact_object
    [("code", "502"); ("detail", json.quote "bad gateway")].

(** An error type and a message with accented letters. *)
Definition declined_type : string := "refusé".
Definition declined_message : string := "clé d'API refusée — réessayez".
Definition declined_body : string :=
  json.compact_object
    [("error", json.quote declined_type);
     ("message", json.quote declined_message)].

(** An invoice id with a line feed in it. *)
Definition id_with_line_feed : string := "inv" +:+ newline +:+ "1".

Definition full_request : @CreateInvoiceRequest Example.types :=
  {| CreateInvoiceRequest_OrderID := "ORDER-3";
     CreateInvoiceRequest_FiatAmount := Some (Example.Whole 25 : @float64 Example.types);
     CreateInvoiceRequest_FiatCurrency := "EUR";
     CreateInvoiceRequest_CryptoAmount := None;
     CreateInvoiceRequest_Currency := "BTC";
     CreateInvoiceRequest_AllowedErrorPercent := Some 5%Z;
     CreateInvoiceRequest_OrderName := "";
     CreateInvoiceRequest_ExpireMin := Some 30%Z;
     CreateInvoiceRequest_CallbackURL := "https://your-app.com/webhook" |}.

End Scenario.

(** * Properties *)

Section Properties.
Context `{GoDecoders}.

(** ** Traces *)

Lemma snoc_not_nil {A : Type} (pre : list A) (x : A) (l : list A) :
  l ++ pre ++ [x] <> l.
Proof.
  intros E. apply (f_equal (@length A)) in E.
  rewrite !length_app in E. simpl in E. lia.
Qed.

(** An [answered] computation whose new events are [evs] has the answer
    as the last of them. *)
Lemma answered_last {A : Type} (m : M A) (tr : trace) (evs : list event)
    (status : Z) (body : string) :
  snd (m tr) = tr ++ evs ->
  answered m tr status body ->
  last_answer evs =
    Some (Do_ok {| Response_StatusCode := status;
                   Response_Body := ReadAll_ok body |}).
Proof.
  intros E (pre & req & Ha). rewrite E in Ha.
  apply app_inv_head in Ha. subst evs.
  unfold last_answer. rewrite last_snoc. reflexivity.
Qed.

(** ** [doRequest] *)

Lemma doRequest_eq (c : Client) (ctx : Context_) (method path : string)
    (body : option payload) (tr : trace) :
  doRequest c ctx method path body tr =
  (match prepare c ctx method path body with
   | Ok req => interpret (httpClient c tr req)
   | Fail e => Fail e
   end,
   tr ++ doRequest_events c ctx method path body tr).
Proof.
  unfold doRequest, doRequest_events, prepare.
  destruct body as [p|]; simpl.
  - destruct (json_Marshal p) as [data|]; simpl.
    + destruct (http_request_ok method (baseURL c +:+ path)); simpl.
      * unfold bind, Do, interpret, ret.
        destruct (httpClient c tr _) as [resp|msg]; [|reflexivity].
        destruct (Response_Body resp) as [respBody|msg]; [|reflexivity].
        destruct (400 <=? Response_StatusCode resp)%Z; [|reflexivity].
        destruct (json_Unmarshal_ErrorResponse respBody); reflexivity.
      * unfold ret. rewrite app_nil_r. reflexivity.
    + unfold ret. rewrite app_nil_r. reflexivity.
  - destruct (http_request_ok method (baseURL c +:+ path)); simpl.
    + unfold bind, Do, interpret, ret.
      destruct (httpClient c tr _) as [resp|msg]; [|reflexivity].
      destruct (Response_Body resp) as [respBody|msg]; [|reflexivity].
      destruct (400 <=? Response_StatusCode resp)%Z; [|reflexivity].
      destruct (json_Unmarshal_ErrorResponse respBody); reflexivity.
    + unfold ret. rewrite app_nil_r. reflexivity.
Qed.

(** When [doRequest] ended on an answered exchange, its result is what
    [interpret] makes of that answer. *)
Lemma doRequest_answered (c : Client) (ctx : Context_) (method path : string)
    (body : option payload) (tr : trace) (res : Do_result) :
  last_answer (doRequest_events c ctx method path body tr) = Some res ->
  fst (doRequest c ctx method path body tr) = interpret res.
Proof.
  rewrite doRequest_eq. unfold doRequest_events. simpl.
  destruct (prepare c ctx method path body) as [req|e]; simpl.
  - intros E. injection E as <-. reflexivity.
  - discriminate.
Qed.

(** ** The endpoint methods over [doRequest] *)

Lemma invoke_trace (c : Client) (ctx : Context_) (k : call) (tr : trace) :
  snd (invoke c ctx k tr) =
  tr ++ call_prints k ++
    doRequest_events c ctx (call_method k) (call_path k) (call_body k)
      (tr ++ call_prints k).
Proof.
  destruct k; simpl;
    unfold CreateInvoice, GetInvoice, ListInvoices, GetCurrencies, GetRates,
      UpdateInvoiceStatus, SimulateWebhook, bind, print, ret;
    rewrite ?app_nil_r; rewrite doRequest_eq; simpl;
    rewrite <- ?app_assoc; reflexivity.
Qed.

(** An error of [doRequest] is the endpoint's error, unchanged. *)
Lemma invoke_fail (c : Client) (ctx : Context_) (k : call) (tr : trace)
    (e : error) :
  fst (doRequest c ctx (call_method k) (call_path k) (call_body k)
         (tr ++ call_prints k)) = Fail e ->
  fst (invoke c ctx k tr) = Fail e.
Proof.
  destruct k; simpl;
    unfold CreateInvoice, GetInvoice, ListInvoices, GetCurrencies, GetRates,
      UpdateInvoiceStatus, SimulateWebhook, bind, print, ret;
    rewrite ?app_nil_r;
    match goal with
    | |- context [doRequest ?a ?b ?m ?p ?bd ?t] =>
        destruct (doRequest a b m p bd t) as [r tr']
    end; simpl; intros ->; reflexivity.
Qed.

(** The answer an endpoint's trace ends on is the answer to the one
    request its [doRequest] made. *)
Lemma invoke_answered (c : Client) (ctx : Context_) (k : call) (tr : trace)
    (status : Z) (body : string) :
  answered (invoke c ctx k) tr status body ->
  fst (doRequest c ctx (call_method k) (call_path k) (call_body k)
         (tr ++ call_prints k)) =
  interpret (Do_ok {| Response_StatusCode := status;
                      Response_Body := ReadAll_ok body |}).
Proof.
  intros Ha. apply doRequest_answered.
  pose proof (answered_last _ _ _ _ _ (invoke_trace c ctx k tr) Ha) as L.
  revert L. unfold doRequest_events.
  destruct (prepare c ctx (call_method k) (call_path k) (call_body k));
    destruct k; simpl; unfold last_answer; simpl; congruence.
Qed.

(** ** Error mapping *)

Lemma interpret_structured (status : Z) (body : string) (er : ErrorResponse) :
  (400 <= status)%Z ->
  json_Unmarshal_ErrorResponse body = Some er ->
  interpret (Do_ok {| Response_StatusCode := status;
                      Response_Body := ReadAll_ok body |}) =
  Fail (API {| APIError_StatusCode := status;
               APIError_ErrorType := ErrorResponse_Error er;
               APIError_Message := ErrorResponse_Message er |}).
Proof.
  intros Hs Hd. unfold interpret. simpl.
  destruct (Z.leb_spec 400 status); [|lia].
  rewrite Hd. reflexivity.
Qed.

Lemma interpret_undecodable (status : Z) (body : string) :
  (400 <= status)%Z ->
  json_Unmarshal_ErrorResponse body = None ->
  interpret (Do_ok {| Response_StatusCode := status;
                      Response_Body := ReadAll_ok body |}) =
  Fail (Plain ("HTTP " +:+ fmt_d status +:+ ": " +:+ body)).
Proof.
  intros Hs Hd. unfold interpret. simpl.
  destruct (Z.leb_spec 400 status); [|lia].
  rewrite Hd. reflexivity.
Qed.

Example invalid_key_body_decodes :
  json_Unmarshal_ErrorResponse Example.invalid_key_body =
  Some {| ErrorResponse_Error := "invalid_key";
          ErrorResponse_Message := "API key is invalid" |}.
Proof. vm_compute. reflexivity. Qed.

Example not_json_does_not_decode :
  json_Unmarshal_ErrorResponse "not json" = None.
Proof. vm_compute. reflexivity. Qed.

(** The two bodies the specification names, on every client, endpoint
    and status of 400 or more. *)
Corollary invalid_key_on_every_endpoint
    (c : Client) (ctx : Context_) (k : call) (tr : trace) (status : Z) :
  answered (invoke c ctx k) tr status Example.invalid_key_body ->
  (400 <= status)%Z ->
  fst (invoke c ctx k tr) =
  Fail (API {| APIError_StatusCode := status;
               APIError_ErrorType := "invalid_key";
               APIError_Message := "API key is invalid" |}).
Proof.
  intros Ha Hs. apply invoke_fail.
  rewrite (invoke_answered c ctx k tr status _ Ha).
  exact (interpret_structured status _ _ Hs invalid_key_body_decodes).
Qed.

Corollary not_json_on_every_endpoint
    (c : Client) (ctx : Context_) (k : call) (tr : trace) (status : Z) :
  answered (invoke c ctx k) tr status "not json" ->
  (400 <= status)%Z ->
  fst (invoke c ctx k tr) =
  Fail (Plain ("HTTP " +:+ fmt_d status +:+ ": not json")).
Proof.
  intros Ha Hs. apply invoke_fail.
  rewrite (invoke_answered c ctx k tr status _ Ha).
  exact (interpret_undecodable status _ Hs not_json_does_not_decode).
Qed.

(** C1, as the code has it: when a response with status >= 400 carries a
    body that does not decode as the structured error object,
    [doRequest], and with it every endpoint method, fails with a plain
    error whose text is [HTTP <status>: <body>]; it is not an
    [APIError]. *)
Theorem undecodable_error_body_gives_plain_error
    (c : Client) (ctx : Context_) (tr : trace) (status : Z) (body : string) :
  (400 <= status)%Z ->
  json_Unmarshal_ErrorResponse body = None ->
  (forall (method path : string) (p : option payload),
      answered (doRequest c ctx method path p) tr status body ->
      fst (doRequest c ctx method path p tr) =
      Fail (Plain ("HTTP " +:+ fmt_d status +:+ ": " +:+ body)))
  /\ (forall k : call,
      answered (invoke c ctx k) tr status body ->
      fst (invoke c ctx k tr) =
      Fail (Plain ("HTTP " +:+ fmt_d status +:+ ": " +:+ body))).
Proof.
  intros Hs Hd. split.
  - intros method path p Ha.
    rewrite <- (interpret_undecodable status body Hs Hd).
    apply doRequest_answered.
    apply (answered_last (doRequest c ctx method path p) tr _ status body);
      [|exact Ha].
    rewrite doRequest_eq. reflexivity.
  - intros k Ha. apply invoke_fail.
    rewrite (invoke_answered c ctx k tr status body Ha).
    apply interpret_undecodable; assumption.
Qed.

(** C2: when an endpoint method receives a response with status >= 400
    whose body decodes as the structured error object, it returns no
    result and the API error that carries the status code, the decoded
    error type and the decoded message. *)
Theorem structured_error_body_gives_APIError
    (c : Client) (ctx : Context_) (k : call) (tr : trace)
    (status : Z) (body : string) (er : ErrorResponse) :
  answered (invoke c ctx k) tr status body ->
  (400 <= status)%Z ->
  json_Unmarshal_ErrorResponse body = Some er ->
  fst (invoke c ctx k tr) =
  Fail (API {| APIError_StatusCode := status;
               APIError_ErrorType := ErrorResponse_Error er;
               APIError_Message := ErrorResponse_Message er |}).
Proof.
  intros Ha Hs Hd. apply invoke_fail.
  rewrite (invoke_answered c ctx k tr status body Ha).
  apply interpret_structured; assumption.
Qed.

(** C8: when the payload cannot be serialized, [doRequest] returns at
    once with the local error that wraps the serialization failure; the
    trace is as it was, so the transport was not called; the error is
    neither a transport error nor an API error. *)
Theorem marshal_failure_is_local_and_offline
    (c : Client) (ctx : Context_) (method path : string) (p : payload)
    (tr : trace) :
  json_Marshal p = None ->
  doRequest c ctx method path (Some p) tr =
    (Fail (Wrapped "failed to marshal request body" MarshalError), tr)
  /\ is_transport_error
       (Wrapped "failed to marshal request body" MarshalError) = false
  /\ is_api_error
       (Wrapped "failed to marshal request body" MarshalError) = false.
Proof.
  intros Hm. unfold doRequest. rewrite Hm. simpl. auto.
Qed.

(** C9: every call of [CreateInvoice] first writes the debug line with
    the indented serialization of the request to standard output (empty
    where the request cannot be serialized), whatever the client and the
    request; the only event that can follow is the one HTTP exchange. *)
Theorem CreateInvoice_prints_before_sending
    (c : Client) (ctx : Context_) (req : CreateInvoiceRequest) (tr : trace) :
  let text :=
    "DEBUG: Creating invoice with request:" +:+ newline
    +:+ default "" (json.MarshalIndent (CreateInvoiceRequest_json req) "  ")
    +:+ newline in
  exists rest : list event,
    snd (CreateInvoice c ctx req tr) = tr ++ Stdout text :: rest
    /\ rest = doRequest_events c ctx "POST" "/invoices"
                (Some (CreateInvoicePayload req)) (tr ++ [Stdout text])
    /\ (rest = [] \/ exists rq rs, rest = [Exchange rq rs]).
Proof.
  intros text. eexists. split; [|split; [reflexivity|]].
  - pose proof (invoke_trace c ctx (Call_CreateInvoice req) tr) as E.
    simpl in E. exact E.
  - unfold doRequest_events.
    destruct (prepare _ _ _ _ _); [right; eauto | left; reflexivity].
Qed.

(** C10: [Error()] is the message when there is one and the error type
    otherwise; the status code has no part in it. *)
Theorem APIError_Error_message_else_type (e : APIError) :
  APIError_Error e =
    (if decide (APIError_Message e = "") then APIError_ErrorType e
     else APIError_Message e)
  /\ forall code : Z,
       APIError_Error {| APIError_StatusCode := code;
                         APIError_ErrorType := APIError_ErrorType e;
                         APIError_Message := APIError_Message e |} =
       APIError_Error e.
Proof.
  split; [|reflexivity].
  unfold APIError_Error.
  destruct (APIError_Message e) as [|a m]; simpl.
  - destruct (decide (EmptyString = "")); [reflexivity | congruence].
  - destruct (decide (String a m = "")); [discriminate | reflexivity].
Qed.

(** ** Request paths *)

Lemma UpdateInvoiceRequest_marshals (status : string) :
  json_Marshal
    (UpdateInvoicePayload {| UpdateInvoiceRequest_Status := status |}) =
  Some (json.compact_object [("status", json.quote status)]).
Proof. reflexivity. Qed.

(** C3, as the code has it: [GetInvoice] and [UpdateInvoiceStatus]
    request the path [/invoices/] followed by the invoice id exactly as
    given, with no escaping; when the request is acceptable it is the
    one exchange of the call, and its URL is the base URL followed by
    that path. *)
Theorem invoice_id_is_embedded_verbatim
    (c : Client) (ctx : Context_) (invoiceID status : string) (tr : trace) :
  let target := baseURL c +:+ "/invoices/" +:+ invoiceID in
  let get := new_request c ctx "GET" ("/invoices/" +:+ invoiceID) None in
  let patch :=
    new_request c ctx "PATCH" ("/invoices/" +:+ invoiceID)
      (Some (json.compact_object [("status", json.quote status)])) in
  snd (GetInvoice c ctx invoiceID tr) =
    tr ++ (if http_request_ok "GET" target
           then [Exchange get (httpClient c tr get)] else [])
  /\ snd (UpdateInvoiceStatus c ctx invoiceID status tr) =
    tr ++ (if http_request_ok "PATCH" target
           then [Exchange patch (httpClient c tr patch)] else [])
  /\ Request_URL get = target
  /\ Request_URL patch = target.
Proof.
  intros target get patch. split; [|split; [|split; reflexivity]].
  - etransitivity; [exact (invoke_trace c ctx (Call_GetInvoice invoiceID) tr)|].
    cbn [call_prints call_method call_path call_body app].
    rewrite app_nil_r.
    unfold doRequest_events, prepare, invoice_path. fold target.
    destruct (http_request_ok "GET" target); reflexivity.
  - etransitivity;
      [exact (invoke_trace c ctx (Call_UpdateInvoiceStatus invoiceID status) tr)|].
    cbn [call_prints call_method call_path call_body app].
    rewrite app_nil_r.
    unfold doRequest_events, prepare, invoice_path. fold target.
    rewrite UpdateInvoiceRequest_marshals.
    destruct (http_request_ok "PATCH" target); reflexivity.
Qed.

(** ** The query string of [ListInvoices] *)

(** C4, as the code has it: the parameters that are sent appear in the
    query string in increasing order of their keys (created_after,
    created_before, currency, page, page_size, sort_by, sort_order,
    status), whatever the order they were set in; the path is a function
    of the params value. *)
Theorem ListInvoices_query_is_sorted_by_key (p : ListInvoicesParams) :
  ListInvoices_path p = ListInvoices_path_by_key p.
Proof.
  destruct p as [page size status currency after before sortBy sortOrder].
  unfold ListInvoices_path, ListInvoices_query, ListInvoices_path_by_key,
    path_with_query, query_pairs, param_page, param_page_size, param_status,
    param_currency, param_created_after, param_created_before, param_sort_by,
    param_sort_order, url.Encode, url.encode_key.
  cbn [ListInvoicesParams_Page ListInvoicesParams_PageSize
       ListInvoicesParams_Status ListInvoicesParams_Currency
       ListInvoicesParams_CreatedAfter ListInvoicesParams_CreatedBefore
       ListInvoicesParams_SortBy ListInvoicesParams_SortOrder].
  (* the values and the escaping of them are opaque to the ordering *)
  generalize (fmt_d page) (fmt_d size) (Time_Format_RFC3339 after)
    (Time_Format_RFC3339 before) url.QueryEscape.
  intros vpage vsize vafter vbefore esc.
  generalize (0 <? page)%Z, (0 <? size)%Z, (string_is_empty status),
    (string_is_empty currency), (Time_IsZero after), (Time_IsZero before),
    (string_is_empty sortBy), (string_is_empty sortOrder).
  intros b1 b2 b3 b4 b5 b6 b7 b8. clear.
  destruct b1, b2, b3, b4, b5, b6, b7, b8; vm_compute; reflexivity.
Qed.

Lemma cond_Set_lookup_eq (b : bool) (m : url.Values) (k v : string) :
  (if b then url.Set_ m k v else m) !! k = if b then Some [v] else m !! k.
Proof. destruct b; [apply lookup_insert_eq | reflexivity]. Qed.

Lemma cond_Set_lookup_ne (b : bool) (m : url.Values) (k k' v : string) :
  k <> k' ->
  (if b then url.Set_ m k v else m) !! k' = m !! k'.
Proof. intros Hne. destruct b; [apply lookup_insert_ne, Hne | reflexivity]. Qed.

Ltac query_lookup :=
  unfold ListInvoices_query; cbv zeta;
  repeat first
    [ rewrite cond_Set_lookup_eq
    | rewrite cond_Set_lookup_ne by (assumption || discriminate)
    | rewrite lookup_empty ];
  try reflexivity.

Lemma ListInvoices_path_zero : ListInvoices_path ListInvoicesParams_zero = "/invoices".
Proof.
  unfold ListInvoices_path, ListInvoices_query, ListInvoicesParams_zero.
  cbn [ListInvoicesParams_Page ListInvoicesParams_PageSize
       ListInvoicesParams_Status ListInvoicesParams_Currency
       ListInvoicesParams_CreatedAfter ListInvoicesParams_CreatedBefore
       ListInvoicesParams_SortBy ListInvoicesParams_SortOrder].
  rewrite Time_IsZero_zero. reflexivity.
Qed.

Lemma ListInvoices_query_other_keys (p : ListInvoicesParams) (k : string) :
  ~ In k ["page"; "page_size"; "status"; "currency"; "created_after";
          "created_before"; "sort_by"; "sort_order"] ->
  ListInvoices_query p !! k = None.
Proof.
  intros Hk. unfold ListInvoices_query; cbv zeta.
  repeat rewrite cond_Set_lookup_ne
    by (intros <-; apply Hk; simpl; tauto).
  apply lookup_empty.
Qed.

Lemma ListInvoices_trace (p : ListInvoicesParams) (c : Client)
    (ctx : Context_) (tr : trace) :
  snd (ListInvoices c ctx p tr) =
  tr ++ doRequest_events c ctx "GET" (ListInvoices_path p) None tr.
Proof.
  etransitivity; [exact (invoke_trace c ctx (Call_ListInvoices p) tr)|].
  cbn [call_prints call_method call_path call_body app].
  rewrite app_nil_r. reflexivity.
Qed.

(** C5: with the zero params value the path is exactly [/invoices]; with
    Page 2 and PageSize 10 and nothing else it is exactly
    [/invoices?page=2&page_size=10]; and for every params value a
    parameter is in the query exactly when its field is not at its
    default (page > 0, page_size > 0, strings non-empty, times not
    zero), with the field's value as its only value, and no other
    parameter is; that path is the one handed to [doRequest]. *)
Theorem ListInvoices_sends_only_non_default_parameters :
  ListInvoices_path ListInvoicesParams_zero = "/invoices"
  /\ ListInvoices_path
       {| ListInvoicesParams_Page := 2; ListInvoicesParams_PageSize := 10;
          ListInvoicesParams_Status := ""; ListInvoicesParams_Currency := "";
          ListInvoicesParams_CreatedAfter := Time_zero;
          ListInvoicesParams_CreatedBefore := Time_zero;
          ListInvoicesParams_SortBy := ""; ListInvoicesParams_SortOrder := "" |}
     = "/invoices?page=2&page_size=10"
  /\ forall p : ListInvoicesParams,
       let q := ListInvoices_query p in
       q !! "page" =
         (if (0 <? ListInvoicesParams_Page p)%Z
          then Some [fmt_d (ListInvoicesParams_Page p)] else None)
       /\ q !! "page_size" =
         (if (0 <? ListInvoicesParams_PageSize p)%Z
          then Some [fmt_d (ListInvoicesParams_PageSize p)] else None)
       /\ q !! "status" =
         (if string_is_empty (ListInvoicesParams_Status p)
          then None else Some [ListInvoicesParams_Status p])
       /\ q !! "currency" =
         (if string_is_empty (ListInvoicesParams_Currency p)
          then None else Some [ListInvoicesParams_Currency p])
       /\ q !! "created_after" =
         (if Time_IsZero (ListInvoicesParams_CreatedAfter p)
          then None
          else Some [Time_Format_RFC3339 (ListInvoicesParams_CreatedAfter p)])
       /\ q !! "created_before" =
         (if Time_IsZero (ListInvoicesParams_CreatedBefore p)
          then None
          else Some [Time_Format_RFC3339 (ListInvoicesParams_CreatedBefore p)])
       /\ q !! "sort_by" =
         (if string_is_empty (ListInvoicesParams_SortBy p)
          then None else Some [ListInvoicesParams_SortBy p])
       /\ q !! "sort_order" =
         (if string_is_empty (ListInvoicesParams_SortOrder p)
          then None else Some [ListInvoicesParams_SortOrder p])
       /\ (forall k : string,
            ~ In k ["page"; "page_size"; "status"; "currency"; "created_after";
                    "created_before"; "sort_by"; "sort_order"] ->
            q !! k = None)
       /\ forall (c : Client) (ctx : Context_) (tr : trace),
            snd (ListInvoices c ctx p tr) =
            tr ++ doRequest_events c ctx "GET" (ListInvoices_path p) None tr.
Proof.
  split; [apply ListInvoices_path_zero|]. split.
  - unfold ListInvoices_path, ListInvoices_query.
    cbn [ListInvoicesParams_Page ListInvoicesParams_PageSize
         ListInvoicesParams_Status ListInvoicesParams_Currency
         ListInvoicesParams_CreatedAfter ListInvoicesParams_CreatedBefore
         ListInvoicesParams_SortBy ListInvoicesParams_SortOrder].
    rewrite Time_IsZero_zero. reflexivity.
  - intros p q. subst q.
    repeat match goal with |- _ /\ _ => split end;
      try apply ListInvoices_query_other_keys;
      try apply ListInvoices_trace;
      query_lookup;
      match goal with |- context [negb ?b] => destruct b; reflexivity end.
Qed.

(** ** The invoice-creation payload *)

(** The members the encoder writes are the fields that are [Emitted]. *)
Lemma emitted_members_In (fs : list (string * json.encoded))
    (ms : list (string * string)) (k t : string) :
  json.emitted_members fs = Some ms ->
  In (k, t) ms <-> In (k, json.Emitted t) fs.
Proof.
  revert ms. induction fs as [|[name e] fs IH]; intros ms E; simpl in E.
  - injection E as <-. reflexivity.
  - destruct e as [|text|]; [| |discriminate].
    + rewrite (IH ms E). simpl. split; [auto|].
      intros [D|I]; [discriminate D | exact I].
    + destruct (json.emitted_members fs) as [ms'|]; [|discriminate].
      injection E as <-. simpl. rewrite (IH ms' eq_refl).
      split; intros [D|I]; auto; left; congruence.
Qed.

Lemma emitted_members_supported (fs : list (string * json.encoded))
    (ms : list (string * string)) (k : string) :
  json.emitted_members fs = Some ms ->
  ~ In (k, json.Unsupported) fs.
Proof.
  revert ms. induction fs as [|[name e] fs IH]; intros ms E; simpl in E.
  - intros [].
  - destruct e as [|text|]; [| |discriminate].
    + intros [D|I]; [discriminate D | exact (IH ms E I)].
    + destruct (json.emitted_members fs) as [ms'|]; [|discriminate].
      intros [D|I]; [discriminate D | exact (IH ms' eq_refl I)].
Qed.

Lemma In_keys {A : Type} (ms : list (string * A)) (k : string) :
  In k (List.map fst ms) <-> exists t, In (k, t) ms.
Proof.
  rewrite in_map_iff. split.
  - intros ([k' t] & E & I). simpl in E. subst k'. eauto.
  - intros (t & I). exists (k, t). auto.
Qed.

Lemma encode_float64_cases (f : float64) :
  encode_float64 f = json.Unsupported
  \/ encode_float64 f = json.Emitted (float64_json f).
Proof. unfold encode_float64. destruct (float64_unsupported f); auto. Qed.

(** An optional field's key is among the members exactly when one of the
    fields by that name is [Emitted]. *)
Lemma key_emitted (fs : list (string * json.encoded))
    (ms : list (string * string)) (k : string) :
  json.emitted_members fs = Some ms ->
  In k (List.map fst ms) <-> exists t, In (k, json.Emitted t) fs.
Proof.
  intros E. rewrite In_keys.
  split; intros (t & I); exists t; apply (emitted_members_In fs ms k t E), I.
Qed.

Ltac member_cases H :=
  simpl in H;
  repeat match type of H with
         | _ \/ _ => destruct H as [H|H]
         end;
  try contradiction; try congruence.

(** C6: in the body [CreateInvoice] serializes, the key [fiat_amount]
    is present exactly when [FiatAmount] is set, and so for
    [crypto_amount], [allowed_error_percent] and [expire_min]; an unset
    field leaves no member at all (neither [0] nor [null]), and a field
    that is set is written with its value, zero included. *)
Theorem optional_fields_are_omitted_when_unset
    (r : CreateInvoiceRequest) (body : string) :
  json_Marshal (CreateInvoicePayload r) = Some body ->
  exists ms : list (string * string),
    json.emitted_members (CreateInvoiceRequest_json r) = Some ms
    /\ body = json.compact_object ms
    /\ (In "fiat_amount" (List.map fst ms)
        <-> CreateInvoiceRequest_FiatAmount r <> None)
    /\ (In "crypto_amount" (List.map fst ms)
        <-> CreateInvoiceRequest_CryptoAmount r <> None)
    /\ (In "allowed_error_percent" (List.map fst ms)
        <-> CreateInvoiceRequest_AllowedErrorPercent r <> None)
    /\ (In "expire_min" (List.map fst ms)
        <-> CreateInvoiceRequest_ExpireMin r <> None)
    /\ (forall f, CreateInvoiceRequest_FiatAmount r = Some f ->
                  In ("fiat_amount", float64_json f) ms)
    /\ (forall f, CreateInvoiceRequest_CryptoAmount r = Some f ->
                  In ("crypto_amount", float64_json f) ms)
    /\ (forall n, CreateInvoiceRequest_AllowedErrorPercent r = Some n ->
                  In ("allowed_error_percent", fmt_d n) ms)
    /\ (forall n, CreateInvoiceRequest_ExpireMin r = Some n ->
                  In ("expire_min", fmt_d n) ms).
Proof.
  unfold json_Marshal, json.Marshal. cbn [payload_json].
  destruct (json.emitted_members (CreateInvoiceRequest_json r)) as [ms|] eqn:E;
    [|discriminate].
  intros B. injection B as <-. exists ms.
  split; [reflexivity|]. split; [reflexivity|].
  pose proof (key_emitted _ ms "fiat_amount" E) as Kf.
  pose proof (key_emitted _ ms "crypto_amount" E) as Kc.
  pose proof (key_emitted _ ms "allowed_error_percent" E) as Ka.
  pose proof (key_emitted _ ms "expire_min" E) as Ke.
  pose proof (fun k t => emitted_members_In _ ms k t E) as Km.
  pose proof (fun k => emitted_members_supported _ ms k E) as Ks.
  unfold CreateInvoiceRequest_json in Kf, Kc, Ka, Ke, Km, Ks.
  assert (Hf : forall f, CreateInvoiceRequest_FiatAmount r = Some f ->
                         In ("fiat_amount", float64_json f) ms).
  { intros f Hr. apply Km. rewrite Hr. simpl.
    destruct (encode_float64_cases f) as [U|U]; rewrite U.
    - exfalso. apply (Ks "fiat_amount"). rewrite Hr. simpl. rewrite U. tauto.
    - tauto. }
  assert (Hc : forall f, CreateInvoiceRequest_CryptoAmount r = Some f ->
                         In ("crypto_amount", float64_json f) ms).
  { intros f Hr. apply Km. rewrite Hr. simpl.
    destruct (encode_float64_cases f) as [U|U]; rewrite U.
    - exfalso. apply (Ks "crypto_amount"). rewrite Hr. simpl. rewrite U. tauto.
    - tauto. }
  assert (Ha : forall n, CreateInvoiceRequest_AllowedErrorPercent r = Some n ->
                         In ("allowed_error_percent", fmt_d n) ms).
  { intros n Hr. apply Km. rewrite Hr. simpl. tauto. }
  assert (He : forall n, CreateInvoiceRequest_ExpireMin r = Some n ->
                         In ("expire_min", fmt_d n) ms).
  { intros n Hr. apply Km. rewrite Hr. simpl. tauto. }
  repeat split; try assumption.
  - intros I Hr. apply Kf in I. destruct I as (t & I). rewrite Hr in I.
    member_cases I.
  - intros Hr. destruct (CreateInvoiceRequest_FiatAmount r) as [f|] eqn:Er;
      [|congruence].
    apply In_keys. exists (float64_json f). apply Hf. reflexivity.
  - intros I Hr. apply Kc in I. destruct I as (t & I). rewrite Hr in I.
    member_cases I.
  - intros Hr. destruct (CreateInvoiceRequest_CryptoAmount r) as [f|] eqn:Er;
      [|congruence].
    apply In_keys. exists (float64_json f). apply Hc. reflexivity.
  - intros I Hr. apply Ka in I. destruct I as (t & I). rewrite Hr in I.
    member_cases I.
  - intros Hr.
    destruct (CreateInvoiceRequest_AllowedErrorPercent r) as [n|] eqn:Er;
      [|congruence].
    apply In_keys. exists (fmt_d n). apply Ha. reflexivity.
  - intros I Hr. apply Ke in I. destruct I as (t & I). rewrite Hr in I.
    member_cases I.
  - intros Hr. destruct (CreateInvoiceRequest_ExpireMin r) as [n|] eqn:Er;
      [|congruence].
    apply In_keys. exists (fmt_d n). apply He. reflexivity.
Qed.

(** ** The currencies array *)

Lemma decode_elems_Forall2 {T : Type} (elem : json.Value -> option T)
    (vs : list json.Value) (xs : list T) :
  Forall2 (fun v x => elem v = Some x) vs xs <->
  json.decode_elems elem vs = Some xs.
Proof.
  split.
  - induction 1 as [|v x vs xs Hv _ IH]; simpl; [reflexivity|].
    rewrite Hv, IH. reflexivity.
  - revert xs. induction vs as [|v vs IH]; intros xs E; simpl in E.
    + injection E as <-. constructor.
    + destruct (elem v) as [x|] eqn:Ev; [|discriminate].
      destruct (json.decode_elems elem vs) as [xs'|]; [|discriminate].
      injection E as <-. constructor; [exact Ev | apply IH; reflexivity].
Qed.

Lemma interpret_success (status : Z) (body : string) :
  (status < 400)%Z ->
  interpret (Do_ok {| Response_StatusCode := status;
                      Response_Body := ReadAll_ok body |}) = Ok body.
Proof.
  intros Hs. unfold interpret. simpl.
  destruct (Z.leb_spec 400 status); [lia | reflexivity].
Qed.

Lemma GetCurrencies_result (c : Client) (ctx : Context_) (tr : trace) :
  fst (GetCurrencies c ctx tr) =
  decode_response (fst (doRequest c ctx "GET" "/currencies" None tr))
    (fun respBody =>
       option_map
         (fun currencies => {| CurrenciesResponse_Currencies := currencies |})
         (json_Unmarshal_Currencies respBody))
    "failed to unmarshal currencies response".
Proof.
  unfold GetCurrencies, bind, ret.
  destruct (doRequest c ctx "GET" "/currencies" None tr). reflexivity.
Qed.

(** C7: when [GetCurrencies] receives a 2xx response whose body is a
    JSON array, each element of which decodes as a currency, it returns
    the wrapper whose [Currencies] are the decoded elements, one per
    array element and in the order of the array. *)
Theorem GetCurrencies_wraps_the_array_in_order
    (c : Client) (ctx : Context_) (tr : trace) (status : Z) (body : string)
    (vs : list json.Value) (cs : list Currency) :
  answered (GetCurrencies c ctx) tr status body ->
  (200 <= status < 300)%Z ->
  json.parse body = Some (json.Array vs) ->
  Forall2 (fun v x => decode_Currency v = Some x) vs cs ->
  fst (GetCurrencies c ctx tr) = Ok {| CurrenciesResponse_Currencies := cs |}.
Proof.
  intros Ha Hs Hp Hd.
  rewrite GetCurrencies_result.
  pose proof (invoke_answered c ctx Call_GetCurrencies tr status body Ha) as E.
  cbn [call_method call_path call_body call_prints] in E.
  rewrite app_nil_r in E. rewrite E.
  rewrite interpret_success by lia.
  unfold decode_response, json_Unmarshal_Currencies, json.Unmarshal.
  rewrite Hp. cbn [json.decode_slice].
  apply decode_elems_Forall2 in Hd. rewrite Hd. reflexivity.
Qed.

End Properties.

(** * Further properties of the package *)

Section Calls.
Context `{GoDecoders}.

(** ** What a call does to the trace *)

Lemma new_events_app {A : Type} (m : M A) (tr : trace) (evs : list event) :
  snd (m tr) = tr ++ evs -> new_events m tr = evs.
Proof. intros E. unfold new_events. rewrite E. apply drop_app_length. Qed.

Lemma invoke_new_events (c : Client) (ctx : Context_) (k : call) (tr : trace) :
  new_events (invoke c ctx k) tr =
  call_prints k ++
    doRequest_events c ctx (call_method k) (call_path k) (call_body k)
      (tr ++ call_prints k).
Proof. apply new_events_app, invoke_trace. Qed.

Lemma invoke_appends (c : Client) (ctx : Context_) (k : call) (tr : trace) :
  snd (invoke c ctx k tr) = tr ++ new_events (invoke c ctx k) tr.
Proof. rewrite invoke_new_events. apply invoke_trace. Qed.

Lemma doRequest_events_cases (c : Client) (ctx : Context_)
    (method path : string) (body : option payload) (tr : trace) :
  doRequest_events c ctx method path body tr = []
  \/ exists req, prepare c ctx method path body = Ok req
                 /\ doRequest_events c ctx method path body tr =
                    [Exchange req (httpClient c tr req)].
Proof.
  unfold doRequest_events.
  destruct (prepare c ctx method path body) as [req|e]; eauto.
Qed.

Lemma prepare_request (c : Client) (ctx : Context_) (method path : string)
    (body : option payload) (req : Request) :
  prepare c ctx method path body = Ok req ->
  exists data : option string,
    req = new_request c ctx method path data
    /\ match body with
       | Some p => json_Marshal p = data
       | None => data = None
       end.
Proof.
  unfold prepare. destruct body as [p|].
  - destruct (json_Marshal p) as [data|]; [|discriminate].
    destruct (http_request_ok _ _); [|discriminate].
    intros E. injection E as <-. eauto.
  - destruct (http_request_ok _ _); [|discriminate].
    intros E. injection E as <-. eauto.
Qed.

Lemma prepare_fail (c : Client) (ctx : Context_) (method path : string)
    (body : option payload) (e : error) :
  prepare c ctx method path body = Fail e ->
  (e = Wrapped "failed to marshal request body" MarshalError
   /\ exists p, body = Some p /\ json_Marshal p = None)
  \/ (e = Wrapped "failed to create request" NewRequestError
      /\ http_request_ok method (baseURL c +:+ path) = false).
Proof.
  unfold prepare. destruct body as [p|].
  - destruct (json_Marshal p) as [data|] eqn:M.
    + destruct (http_request_ok method (baseURL c +:+ path)) eqn:U;
        [discriminate|].
      intros E. injection E as <-. auto.
    + intros E. injection E as <-. left. eauto.
  - destruct (http_request_ok method (baseURL c +:+ path)) eqn:U;
      [discriminate|].
    intros E. injection E as <-. auto.
Qed.

(** X1: a call of an endpoint method only adds to the trace, and what it
    adds is at most one HTTP exchange (nothing is retried), preceded, for
    [CreateInvoice] only, by the one debug line on standard output. *)
Theorem endpoint_makes_at_most_one_exchange
    (c : Client) (ctx : Context_) (k : call) (tr : trace) :
  snd (invoke c ctx k tr) = tr ++ new_events (invoke c ctx k) tr
  /\ (length (exchanges (new_events (invoke c ctx k) tr)) <= 1)%nat
  /\ stdout_texts (new_events (invoke c ctx k) tr) =
     match k with
     | Call_CreateInvoice req => [CreateInvoice_debug req]
     | _ => []
     end.
Proof.
  split; [apply invoke_appends|]. rewrite invoke_new_events.
  destruct (doRequest_events_cases c ctx (call_method k) (call_path k)
              (call_body k) (tr ++ call_prints k)) as [E|(req & _ & E)];
    rewrite E; destruct k; simpl; auto.
Qed.

(** X2: the request an endpoint method sends is bound to the caller's
    context, addressed to the base URL followed by the endpoint's path,
    typed as JSON, and carries the API key header exactly when the
    client's key is not empty; its outcome is the network's answer in
    view of the trace at that point. *)
Theorem endpoint_request_shape
    (c : Client) (ctx : Context_) (k : call) (tr : trace)
    (req : Request) (res : Do_result) :
  In (req, res) (exchanges (new_events (invoke c ctx k) tr)) ->
  Request_ctx req = ctx
  /\ Request_Method req = call_method k
  /\ Request_URL req = baseURL c +:+ call_path k
  /\ In ("Content-Type", "application/json") (Request_Header req)
  /\ (forall v, In ("Api-Key", v) (Request_Header req)
                <-> v = apiKey c /\ apiKey c <> "")
  /\ match call_body k with
     | Some p => json_Marshal p = Request_Body req
     | None => Request_Body req = None
     end
  /\ res = httpClient c (tr ++ call_prints k) req.
Proof.
  rewrite invoke_new_events.
  destruct (doRequest_events_cases c ctx (call_method k) (call_path k)
              (call_body k) (tr ++ call_prints k)) as [E|(rq & P & E)];
    rewrite E.
  - destruct k; simpl; tauto.
  - intros I.
    assert (Hq : (req, res) = (rq, httpClient c (tr ++ call_prints k) rq)).
    { destruct k; simpl in I |- *; intuition congruence. }
    injection Hq as -> ->.
    destruct (prepare_request _ _ _ _ _ _ P) as (data & -> & Hb).
    unfold new_request, request_headers. simpl.
    repeat match goal with |- _ /\ _ => split end; auto.
    + intros v. destruct (apiKey c) as [|a s]; simpl; split.
      * intros [D|[]]. congruence.
      * intros [_ Hne]. congruence.
      * intros [D|[D|[]]]; [congruence|].
        injection D as <-. split; [reflexivity | discriminate].
      * intros [-> _]. auto.
Qed.

(** ** How a call ends *)

Lemma invoke_result (c : Client) (ctx : Context_) (k : call) (tr : trace) :
  fst (invoke c ctx k tr) =
  decode_response
    (fst (doRequest c ctx (call_method k) (call_path k) (call_body k)
            (tr ++ call_prints k)))
    (call_decoder k) (call_context k).
Proof.
  destruct k; simpl;
    unfold CreateInvoice, GetInvoice, ListInvoices, GetCurrencies, GetRates,
      UpdateInvoiceStatus, SimulateWebhook, bind, print, ret;
    rewrite ?app_nil_r;
    match goal with
    | |- context [doRequest ?a ?b ?m ?p ?bd ?t] =>
        destruct (doRequest a b m p bd t) as [r tr']
    end; reflexivity.
Qed.

(** The whole of a call: what it returns and what it adds to the trace,
    by whether a request could be built and what the network answered. *)
Lemma invoke_cases (c : Client) (ctx : Context_) (k : call) (tr : trace) :
  match prepare c ctx (call_method k) (call_path k) (call_body k) with
  | Fail e =>
      fst (invoke c ctx k tr) = Fail e
      /\ new_events (invoke c ctx k) tr = call_prints k
  | Ok req =>
      fst (invoke c ctx k tr) =
        decode_response (interpret (httpClient c (tr ++ call_prints k) req))
          (call_decoder k) (call_context k)
      /\ new_events (invoke c ctx k) tr =
         call_prints k ++
           [Exchange req (httpClient c (tr ++ call_prints k) req)]
  end.
Proof.
  rewrite invoke_result, invoke_new_events, doRequest_eq.
  unfold doRequest_events. cbn [fst].
  destruct (prepare c ctx (call_method k) (call_path k) (call_body k));
    [|rewrite app_nil_r]; split; reflexivity.
Qed.

Lemma ended_with_new_events {A : Type} (m : M A) (tr : trace)
    (res : Do_result) :
  ended_with m tr res ->
  exists pre req, new_events m tr = pre ++ [Exchange req res].
Proof.
  intros (pre & req & E). exists pre, req. apply new_events_app, E.
Qed.

Lemma new_events_ended_with (c : Client) (ctx : Context_) (k : call)
    (tr : trace) (pre : list event) (req : Request) (res : Do_result) :
  new_events (invoke c ctx k) tr = pre ++ [Exchange req res] ->
  ended_with (invoke c ctx k) tr res.
Proof.
  intros E. exists pre, req. rewrite invoke_appends, E. reflexivity.
Qed.

(** A call that ended on an exchange did build a request, and the
    outcome is the network's answer to it. *)
Lemma ended_with_inv (c : Client) (ctx : Context_) (k : call) (tr : trace)
    (res : Do_result) :
  ended_with (invoke c ctx k) tr res ->
  exists req,
    prepare c ctx (call_method k) (call_path k) (call_body k) = Ok req
    /\ httpClient c (tr ++ call_prints k) req = res.
Proof.
  intros Ha. apply ended_with_new_events in Ha. destruct Ha as (pre & rq & E).
  pose proof (invoke_cases c ctx k tr) as C.
  destruct (prepare c ctx (call_method k) (call_path k) (call_body k))
    as [req|e]; destruct C as [_ N]; rewrite N in E.
  - exists req. split; [reflexivity|].
    apply (f_equal (@last event)) in E.
    rewrite !last_snoc in E. congruence.
  - apply (f_equal (@last event)) in E. rewrite last_snoc in E.
    destruct k; discriminate E.
Qed.

Lemma ended_with_result (c : Client) (ctx : Context_) (k : call) (tr : trace)
    (res : Do_result) :
  ended_with (invoke c ctx k) tr res ->
  fst (invoke c ctx k tr) =
  decode_response (interpret res) (call_decoder k) (call_context k).
Proof.
  intros Ha. destruct (ended_with_inv c ctx k tr res Ha) as (req & P & R).
  pose proof (invoke_cases c ctx k tr) as C. rewrite P in C.
  rewrite (proj1 C), R. reflexivity.
Qed.

(** X3: when the exchange an endpoint method made failed in the
    transport (refused connection, cancellation, timeout), the method
    returns the transport's error wrapped as a failure to execute the
    request; it is a transport error, not an API error, and no second
    attempt was made. *)
Theorem transport_failure_is_returned_wrapped
    (c : Client) (ctx : Context_) (k : call) (tr : trace) (msg : string) :
  ended_with (invoke c ctx k) tr (Do_err msg) ->
  fst (invoke c ctx k tr) =
    Fail (Wrapped "failed to execute request" (TransportError msg))
  /\ length (exchanges (new_events (invoke c ctx k) tr)) = 1%nat.
Proof.
  intros Ha. split.
  - rewrite (ended_with_result c ctx k tr _ Ha). reflexivity.
  - destruct (ended_with_inv c ctx k tr _ Ha) as (req & P & _).
    pose proof (invoke_cases c ctx k tr) as C. rewrite P in C.
    rewrite (proj2 C). destruct k; reflexivity.
Qed.

(** X4: when the response body could not be read in full, the method
    returns the read error wrapped, whatever the status code was: a
    status of 400 or more with an unreadable body does not give an API
    error. *)
Theorem unreadable_body_hides_the_status
    (c : Client) (ctx : Context_) (k : call) (tr : trace)
    (status : Z) (msg : string) :
  ended_with (invoke c ctx k) tr
    (Do_ok {| Response_StatusCode := status;
              Response_Body := ReadAll_err msg |}) ->
  fst (invoke c ctx k tr) =
    Fail (Wrapped "failed to read response body" (ReadError msg)).
Proof.
  intros Ha. rewrite (ended_with_result c ctx k tr _ Ha). reflexivity.
Qed.

(** X5: when the method and URL are not accepted for a request, an
    endpoint method whose payload serializes fails with the wrapped
    request-creation error and the network is not called. *)
Theorem rejected_request_is_not_sent
    (c : Client) (ctx : Context_) (k : call) (tr : trace) :
  http_request_ok (call_method k) (baseURL c +:+ call_path k) = false ->
  (forall p, call_body k = Some p -> json_Marshal p <> None) ->
  fst (invoke c ctx k tr) =
    Fail (Wrapped "failed to create request" NewRequestError)
  /\ exchanges (new_events (invoke c ctx k) tr) = [].
Proof.
  intros Hu Hm. pose proof (invoke_cases c ctx k tr) as C.
  assert (P : prepare c ctx (call_method k) (call_path k) (call_body k) =
              Fail (Wrapped "failed to create request" NewRequestError)).
  { unfold prepare. destruct (call_body k) as [p|] eqn:B.
    - specialize (Hm p eq_refl).
      destruct (json_Marshal p); [|congruence]. rewrite Hu. reflexivity.
    - rewrite Hu. reflexivity. }
  rewrite P in C. destruct C as [R N]. rewrite R, N.
  split; [reflexivity | destruct k; reflexivity].
Qed.

Lemma status_below_400' (c : Client) (ctx : Context_) (k : call)
    (tr : trace) (status : Z) (body : string) :
  answered (invoke c ctx k) tr status body ->
  (status < 400)%Z ->
  fst (invoke c ctx k tr) =
  match call_decoder k body with
  | Some v => Ok v
  | None => Fail (Wrapped (call_context k) UnmarshalError)
  end.
Proof.
  intros Ha Hs.
  rewrite (ended_with_result c ctx k tr _ Ha), interpret_success by exact Hs.
  reflexivity.
Qed.

(** X6: every status below 400 counts as success, 1xx and 3xx included:
    the method returns what its decoder makes of the raw body, and a
    body the decoder refuses gives the endpoint's wrapped decoding
    error, after the exchange has taken place. *)
Theorem status_below_400_is_decoded
    (c : Client) (ctx : Context_) (k : call) (tr : trace)
    (status : Z) (body : string) :
  answered (invoke c ctx k) tr status body ->
  (status < 400)%Z ->
  fst (invoke c ctx k tr) =
  match call_decoder k body with
  | Some v => Ok v
  | None => Fail (Wrapped (call_context k) UnmarshalError)
  end.
Proof.
  apply status_below_400'.
Qed.

Lemma interpret_cases (res : Do_result) :
  match interpret res with
  | Ok body =>
      exists status,
        res = Do_ok {| Response_StatusCode := status;
                       Response_Body := ReadAll_ok body |}
        /\ (status < 400)%Z
  | Fail (API e) =>
      exists body er,
        res = Do_ok {| Response_StatusCode := APIError_StatusCode e;
                       Response_Body := ReadAll_ok body |}
        /\ (400 <= APIError_StatusCode e)%Z
        /\ json_Unmarshal_ErrorResponse body = Some er
        /\ APIError_ErrorType e = ErrorResponse_Error er
        /\ APIError_Message e = ErrorResponse_Message er
  | Fail (Plain text) =>
      exists status body,
        res = Do_ok {| Response_StatusCode := status;
                       Response_Body := ReadAll_ok body |}
        /\ (400 <= status)%Z
        /\ json_Unmarshal_ErrorResponse body = None
        /\ text = "HTTP " +:+ fmt_d status +:+ ": " +:+ body
  | Fail (Wrapped context cause) =>
      (exists msg, res = Do_err msg
                   /\ context = "failed to execute request"
                   /\ cause = TransportError msg)
      \/ (exists status msg,
             res = Do_ok {| Response_StatusCode := status;
                            Response_Body := ReadAll_err msg |}
             /\ context = "failed to read response body"
             /\ cause = ReadError msg)
  end.
Proof.
  unfold interpret.
  destruct res as [[status [body|msg]]|msg]; cbn [Response_Body Response_StatusCode].
  - destruct (Z.leb_spec 400 status).
    + destruct (json_Unmarshal_ErrorResponse body) as [er|] eqn:D.
      * exists body, er. auto.
      * exists status, body. auto.
    + exists status. auto.
  - right. eauto.
  - left. eauto.
Qed.

(** X7: an API error is only ever returned for a response that was
    received: its status code is the status of the answer the call ended
    on, that status is 400 or more, and its type and message are the
    two fields decoded from the answer's body. *)
Theorem APIError_reports_a_received_response
    (c : Client) (ctx : Context_) (k : call) (tr : trace) (e : APIError) :
  fst (invoke c ctx k tr) = Fail (API e) ->
  exists (body : string) (er : ErrorResponse),
    answered (invoke c ctx k) tr (APIError_StatusCode e) body
    /\ (400 <= APIError_StatusCode e)%Z
    /\ json_Unmarshal_ErrorResponse body = Some er
    /\ APIError_ErrorType e = ErrorResponse_Error er
    /\ APIError_Message e = ErrorResponse_Message er.
Proof.
  intros R. pose proof (invoke_cases c ctx k tr) as C.
  destruct (prepare c ctx (call_method k) (call_path k) (call_body k))
    as [req|e0] eqn:P; destruct C as [R' N]; rewrite R' in R.
  - pose proof (interpret_cases (httpClient c (tr ++ call_prints k) req)) as I.
    destruct (interpret (httpClient c (tr ++ call_prints k) req))
      as [b|[ctxt cause|text|e']]; cbn [decode_response] in R.
    + destruct (call_decoder k b); discriminate R.
    + discriminate R.
    + discriminate R.
    + injection R as ->. destruct I as (body & er & Hres & Hs & Hd & Ht & Hm).
      exists body, er. split; [|auto].
      unfold answered. exists (call_prints k), req.
      rewrite invoke_appends, N, Hres. reflexivity.
  - destruct (prepare_fail _ _ _ _ _ _ P) as [[-> _]|[-> _]]; discriminate R.
Qed.

(** X8: a result is only ever returned for a response that was received
    with a status below 400, and it is what the endpoint's decoder makes
    of that response's body. *)
Theorem result_comes_from_a_success_response
    (c : Client) (ctx : Context_) (k : call) (tr : trace)
    (v : call_result k) :
  fst (invoke c ctx k tr) = Ok v ->
  exists (status : Z) (body : string),
    answered (invoke c ctx k) tr status body
    /\ (status < 400)%Z
    /\ call_decoder k body = Some v.
Proof.
  intros R. pose proof (invoke_cases c ctx k tr) as C.
  destruct (prepare c ctx (call_method k) (call_path k) (call_body k))
    as [req|e0] eqn:P; destruct C as [R' N]; rewrite R' in R;
    [|discriminate R].
  pose proof (interpret_cases (httpClient c (tr ++ call_prints k) req)) as I.
  destruct (interpret (httpClient c (tr ++ call_prints k) req))
    as [b|e']; cbn [decode_response] in R; [|discriminate R].
  destruct I as (status & Hres & Hs).
  exists status, b. split; [|split; [exact Hs|]].
  - exists (call_prints k), req. rewrite invoke_appends, N, Hres. reflexivity.
  - destruct (call_decoder k b); [congruence | discriminate R].
Qed.

(** X9: every failure of an endpoint method has one of seven shapes:
    the two local errors before the network is reached (nothing was
    sent), the two wrapped transport errors, the plain [HTTP] error and
    the API error for a status of 400 or more, and the endpoint's
    wrapped decoding error for a status below 400. *)
Theorem every_failure_has_one_of_seven_shapes
    (c : Client) (ctx : Context_) (k : call) (tr : trace) (e : error) :
  fst (invoke c ctx k tr) = Fail e ->
  (e = Wrapped "failed to marshal request body" MarshalError
   /\ exchanges (new_events (invoke c ctx k) tr) = [])
  \/ (e = Wrapped "failed to create request" NewRequestError
      /\ exchanges (new_events (invoke c ctx k) tr) = [])
  \/ (exists msg,
         e = Wrapped "failed to execute request" (TransportError msg)
         /\ ended_with (invoke c ctx k) tr (Do_err msg))
  \/ (exists status msg,
         e = Wrapped "failed to read response body" (ReadError msg)
         /\ ended_with (invoke c ctx k) tr
              (Do_ok {| Response_StatusCode := status;
                        Response_Body := ReadAll_err msg |}))
  \/ (exists status body,
         e = Plain ("HTTP " +:+ fmt_d status +:+ ": " +:+ body)
         /\ answered (invoke c ctx k) tr status body
         /\ (400 <= status)%Z
         /\ json_Unmarshal_ErrorResponse body = None)
  \/ (exists a body,
         e = API a
         /\ answered (invoke c ctx k) tr (APIError_StatusCode a) body
         /\ (400 <= APIError_StatusCode a)%Z)
  \/ (exists status body,
         e = Wrapped (call_context k) UnmarshalError
         /\ answered (invoke c ctx k) tr status body
         /\ (status < 400)%Z
         /\ call_decoder k body = None).
Proof.
  intros R. pose proof (invoke_cases c ctx k tr) as C.
  destruct (prepare c ctx (call_method k) (call_path k) (call_body k))
    as [req|e0] eqn:P; destruct C as [R' N]; rewrite R' in R.
  - assert (End : forall res,
               httpClient c (tr ++ call_prints k) req = res ->
               ended_with (invoke c ctx k) tr res).
    { intros res <-. exists (call_prints k), req.
      rewrite invoke_appends, N. reflexivity. }
    pose proof (interpret_cases (httpClient c (tr ++ call_prints k) req)) as I.
    destruct (interpret (httpClient c (tr ++ call_prints k) req))
      as [b|[ctxt cause|text|a]]; cbn [decode_response] in R.
    + destruct I as (status & Hres & Hs).
      destruct (call_decoder k b) eqn:D; [discriminate R|].
      injection R as <-. do 6 right. exists status, b.
      repeat split; auto. apply (End _ Hres).
    + injection R as <-.
      destruct I as [(msg & Hres & -> & ->)|(status & msg & Hres & -> & ->)].
      * do 2 right. left. exists msg. split; [reflexivity | apply (End _ Hres)].
      * do 3 right. left. exists status, msg.
        split; [reflexivity | apply (End _ Hres)].
    + injection R as <-. destruct I as (status & body & Hres & Hs & Hd & ->).
      do 4 right. left. exists status, body.
      repeat split; auto. apply (End _ Hres).
    + injection R as <-. destruct I as (body & er & Hres & Hs & _).
      do 5 right. left. exists a, body.
      repeat split; auto. apply (End _ Hres).
  - injection R as ->.
    assert (X : exchanges (new_events (invoke c ctx k) tr) = []).
    { rewrite N. destruct k; reflexivity. }
    destruct (prepare_fail _ _ _ _ _ _ P) as [[-> _]|[-> _]]; auto.
Qed.

End Calls.

Section Payloads.
Context `{GoDecoders}.

(** ** What is serialized *)

Lemma emitted_members_None (fs : list (string * json.encoded)) :
  json.emitted_members fs = None <-> exists k, In (k, json.Unsupported) fs.
Proof.
  induction fs as [|[name e] fs IH]; simpl.
  - split; [discriminate | intros (k & [])].
  - destruct e as [|text|].
    + rewrite IH. split; intros (k & I); exists k; [auto|].
      destruct I as [D|I]; [discriminate D | exact I].
    + destruct (json.emitted_members fs) as [ms|]; simpl.
      * split; [discriminate|]. intros (k & [D|I]); [discriminate D|].
        assert (X : Some ms = None) by (apply (proj2 IH); eauto).
        discriminate X.
      * split; [|reflexivity]. intros _.
        destruct (proj1 IH eq_refl) as (k & I). eauto.
    + split; [|reflexivity]. intros _. exists name. auto.
Qed.

Lemma emitted_members_keys (fs : list (string * json.encoded))
    (ms : list (string * string)) :
  json.emitted_members fs = Some ms ->
  List.map fst ms =
  List.map fst (List.filter (fun f => is_written (snd f)) fs).
Proof.
  revert ms. induction fs as [|[name e] fs IH]; intros ms E; simpl in E.
  - injection E as <-. reflexivity.
  - destruct e as [|text|]; [| |discriminate]; simpl.
    + apply IH, E.
    + destruct (json.emitted_members fs) as [ms'|]; [|discriminate].
      injection E as <-. simpl. f_equal. apply IH. reflexivity.
Qed.

Lemma amount_encoding_unsupported (a : option float64) :
  encode_ptr_omitempty encode_float64 a = json.Unsupported
  <-> amount_unsupported a = true.
Proof.
  destruct a as [f|]; simpl; [|split; discriminate].
  unfold encode_float64. destruct (float64_unsupported f);
    split; intros E; (reflexivity || discriminate E).
Qed.

(** X10: the invoice-creation payload fails to serialize exactly when
    one of its two amounts is set to NaN or an infinity; the payloads of
    [UpdateInvoiceStatus] and [SimulateWebhook] always serialize. *)
Theorem only_an_unsupported_amount_fails_to_serialize :
  (forall r : CreateInvoiceRequest,
      json_Marshal (CreateInvoicePayload r) = None <->
      amount_unsupported (CreateInvoiceRequest_FiatAmount r) = true
      \/ amount_unsupported (CreateInvoiceRequest_CryptoAmount r) = true)
  /\ (forall r : UpdateInvoiceRequest,
         json_Marshal (UpdateInvoicePayload r) <> None)
  /\ (forall r : WebhookSimulateRequest,
         json_Marshal (WebhookSimulatePayload r) <> None).
Proof.
  split; [|split; intros r; discriminate].
  intros r. unfold json_Marshal, json.Marshal. cbn [payload_json].
  destruct (json.emitted_members (CreateInvoiceRequest_json r)) as [ms|] eqn:E;
    simpl.
  - split; [discriminate|]. intros U. exfalso.
    assert (N : json.emitted_members (CreateInvoiceRequest_json r) = None);
      [|congruence].
    apply emitted_members_None. unfold CreateInvoiceRequest_json.
    destruct U as [U|U]; apply amount_encoding_unsupported in U.
    + exists "fiat_amount". rewrite U. simpl. tauto.
    + exists "crypto_amount". rewrite U. simpl. tauto.
  - split; [|reflexivity]. intros _.
    apply emitted_members_None in E. destruct E as (k & I).
    unfold CreateInvoiceRequest_json in I. simpl in I.
    repeat match type of I with
           | _ \/ _ => destruct I as [I|I]
           end; try contradiction;
      try (injection I as _ I; apply amount_encoding_unsupported in I; tauto);
      exfalso; revert I; unfold encode_string_omitempty, json.omitempty,
        encode_string, encode_ptr_omitempty, encode_int;
      repeat match goal with
             | |- context [string_is_empty ?s] => destruct (string_is_empty s)
             | |- context [match ?o with Some _ => _ | None => _ end] =>
                 destruct o
             end; discriminate.
Qed.

(** X11: the keys of a serialized invoice-creation payload are those of
    the written fields, in the order of the struct: [order_id] and
    [currency] always, even when empty; a pointer field when it is set;
    [fiat_currency], [order_name] and [callback_url] when not empty. *)
Theorem CreateInvoiceRequest_keys_in_field_order
    (r : CreateInvoiceRequest) (ms : list (string * string)) :
  json.emitted_members (CreateInvoiceRequest_json r) = Some ms ->
  List.map fst ms =
  List.map snd (List.filter fst (CreateInvoiceRequest_keys r)).
Proof.
  intros E. rewrite (emitted_members_keys _ _ E).
  unfold CreateInvoiceRequest_json, CreateInvoiceRequest_keys,
    encode_string_omitempty, json.omitempty, encode_string, encode_int,
    encode_float64.
  destruct (CreateInvoiceRequest_FiatAmount r) as [f1|],
    (CreateInvoiceRequest_CryptoAmount r) as [f2|],
    (CreateInvoiceRequest_AllowedErrorPercent r),
    (CreateInvoiceRequest_ExpireMin r);
    destruct (string_is_empty (CreateInvoiceRequest_FiatCurrency r)),
      (string_is_empty (CreateInvoiceRequest_OrderName r)),
      (string_is_empty (CreateInvoiceRequest_CallbackURL r));
    cbn [encode_ptr_omitempty];
    try destruct (float64_unsupported f1);
    try destruct (float64_unsupported f2);
    reflexivity.
Qed.

(** X12: what [CreateInvoice] prints and what it sends are two
    renderings of the same members: the debug line holds them indented,
    the request body holds them compact; the line is printed also when
    the request is then not accepted and nothing is sent. *)
Theorem CreateInvoice_prints_what_it_sends
    (c : Client) (ctx : Context_) (r : CreateInvoiceRequest) (tr : trace)
    (ms : list (string * string)) :
  json.emitted_members (CreateInvoiceRequest_json r) = Some ms ->
  let text :=
    "DEBUG: Creating invoice with request:" +:+ newline
    +:+ json.indented_object "  " ms +:+ newline in
  let req :=
    new_request c ctx "POST" "/invoices" (Some (json.compact_object ms)) in
  new_events (CreateInvoice c ctx r) tr =
  Stdout text
  :: (if http_request_ok "POST" (baseURL c +:+ "/invoices")
      then [Exchange req (httpClient c (tr ++ [Stdout text]) req)]
      else []).
Proof.
  intros E text req.
  assert (D : CreateInvoice_debug r = text).
  { unfold CreateInvoice_debug, json.MarshalIndent. rewrite E. reflexivity. }
  etransitivity; [exact (invoke_new_events c ctx (Call_CreateInvoice r) tr)|].
  cbn [call_prints call_method call_path call_body]. rewrite D.
  unfold doRequest_events, prepare, json_Marshal, json.Marshal.
  cbn [payload_json]. rewrite E. cbn [option_map].
  destruct (http_request_ok "POST" (baseURL c +:+ "/invoices")); reflexivity.
Qed.

(** X13: [CreateInvoice] on a request that does not serialize returns
    the wrapped serialization error; all it has done is print the debug
    line, with nothing between its two line ends. *)
Theorem CreateInvoice_unserializable_request
    (c : Client) (ctx : Context_) (r : CreateInvoiceRequest) (tr : trace) :
  json_Marshal (CreateInvoicePayload r) = None ->
  fst (CreateInvoice c ctx r tr) =
    Fail (Wrapped "failed to marshal request body" MarshalError)
  /\ new_events (CreateInvoice c ctx r) tr =
     [Stdout ("DEBUG: Creating invoice with request:" +:+ newline +:+ newline)].
Proof.
  intros M.
  assert (E : json.emitted_members (CreateInvoiceRequest_json r) = None).
  { revert M. unfold json_Marshal, json.Marshal. cbn [payload_json].
    destruct (json.emitted_members (CreateInvoiceRequest_json r));
      [discriminate | reflexivity]. }
  pose proof (invoke_cases c ctx (Call_CreateInvoice r) tr) as C.
  cbn [call_prints call_method call_path call_body] in C.
  unfold prepare in C. rewrite M in C.
  assert (D : CreateInvoice_debug r =
              "DEBUG: Creating invoice with request:" +:+ newline +:+ newline).
  { unfold CreateInvoice_debug, json.MarshalIndent. rewrite E. reflexivity. }
  rewrite D in C. exact C.
Qed.

(** ** The currencies response *)

(** X14: on a response with a status below 400, [GetCurrencies] returns
    a list exactly when the body is [null] (the list is then empty) or a
    JSON array all of whose elements decode as currencies (the list is
    then their decodings in order); any other body, an object wrapping
    the array included, gives the wrapped decoding error. *)
Theorem GetCurrencies_accepts_only_an_array_or_null
    (c : Client) (ctx : Context_) (tr : trace) (status : Z) (body : string) :
  answered (GetCurrencies c ctx) tr status body ->
  (status < 400)%Z ->
  (forall cs : list Currency,
      fst (GetCurrencies c ctx tr) =
        Ok {| CurrenciesResponse_Currencies := cs |}
      <-> (json.parse body = Some json.Null /\ cs = [])
          \/ exists vs, json.parse body = Some (json.Array vs)
                        /\ Forall2 (fun v x => decode_Currency v = Some x) vs cs)
  /\ ((forall cs, fst (GetCurrencies c ctx tr) <>
                  Ok {| CurrenciesResponse_Currencies := cs |}) ->
      fst (GetCurrencies c ctx tr) =
        Fail (Wrapped "failed to unmarshal currencies response" UnmarshalError))
  /\ (forall ms, json.parse body = Some (json.Object ms) ->
      fst (GetCurrencies c ctx tr) =
        Fail (Wrapped "failed to unmarshal currencies response" UnmarshalError)).
Proof.
  intros Ha Hs.
  assert (R : fst (GetCurrencies c ctx tr) =
              match
                option_map
                  (fun currencies =>
                     {| CurrenciesResponse_Currencies := currencies |})
                  (json_Unmarshal_Currencies body)
              with
              | Some v => Ok v
              | None =>
                  Fail (Wrapped "failed to unmarshal currencies response"
                          UnmarshalError)
              end)
    by exact (status_below_400' c ctx Call_GetCurrencies tr status body Ha Hs).
  rewrite R. unfold json_Unmarshal_Currencies, json.Unmarshal.
  split; [|split].
  - intros cs. destruct (json.parse body) as [v|]; simpl.
    + destruct v as [|b|lit|raw|vs|ms]; simpl;
        try (split; [discriminate | intros [[D _]|(vs' & D & _)]; discriminate D]).
      * split.
        -- intros E. injection E as <-. auto.
        -- intros [[_ ->]|(vs & D & _)]; [reflexivity | discriminate D].
      * split.
        -- intros E. right. exists vs. split; [reflexivity|].
           apply decode_elems_Forall2.
           destruct (json.decode_elems decode_Currency vs) as [xs|];
             simpl in E; [congruence | discriminate E].
        -- intros [[D _]|(vs' & D & F)]; [discriminate D|].
           injection D as <-. apply decode_elems_Forall2 in F.
           rewrite F. reflexivity.
    + split; [discriminate | intros [[D _]|(vs' & D & _)]; discriminate D].
  - intros N.
    destruct (option_map _ _) as [[cs]|]; [|reflexivity].
    destruct (N cs). reflexivity.
  - intros ms P. rewrite P. reflexivity.
Qed.

End Payloads.

(** ** Escaping of query values *)

Lemma all_bytes_app (ok : ascii -> bool) (a b : string) :
  all_bytes ok (a +:+ b) = all_bytes ok a && all_bytes ok b.
Proof.
  induction a as [|x a IH]; simpl; [reflexivity|].
  rewrite IH. apply andb_assoc.
Qed.

Lemma count_byte_app (c : ascii) (a b : string) :
  count_byte c (a +:+ b) = (count_byte c a + count_byte c b)%nat.
Proof. induction a as [|x a IH]; simpl; [reflexivity | rewrite IH; lia]. Qed.

Lemma all_bytes_count (ok : ascii -> bool) (c : ascii) (s : string) :
  ok c = false -> all_bytes ok s = true -> count_byte c s = O.
Proof.
  intros Hc. induction s as [|x s IH]; simpl; [reflexivity|].
  intros Hs. apply andb_true_iff in Hs. destruct Hs as [Hx Hs].
  destruct (Ascii.eqb_spec x c) as [->|_]; [congruence|]. apply IH, Hs.
Qed.

(** Whatever the string, [QueryEscape] produces only letters, digits
    and the bytes [- _ . ~ + %]. *)
Lemma QueryEscape_safe (s : string) :
  all_bytes query_safe (url.QueryEscape s) = true.
Proof.
  unfold url.QueryEscape. induction s as [|c s IH]; [reflexivity|].
  destruct c as [[] [] [] [] [] [] [] []]; simpl; exact IH.
Qed.

Section Query.
Context `{GoDecoders}.

Lemma query_pairs_cons (b : bool) (k v : string)
    (ps : list (bool * string * string)) :
  query_pairs ((b, k, v) :: ps) =
  if b then (url.QueryEscape k +:+ "=" +:+ url.QueryEscape v) :: query_pairs ps
  else query_pairs ps.
Proof. unfold query_pairs. simpl. destruct b; reflexivity. Qed.

Lemma pair_counts (k v : string) :
  let pair := url.QueryEscape k +:+ "=" +:+ url.QueryEscape v in
  count_byte "=" pair = 1%nat
  /\ count_byte "&" pair = O
  /\ count_byte "?" pair = O
  /\ count_byte "#" pair = O
  /\ count_byte "/" pair = O.
Proof.
  cbv zeta. rewrite !count_byte_app.
  rewrite !(all_bytes_count query_safe "=" _ eq_refl (QueryEscape_safe _)).
  rewrite !(all_bytes_count query_safe "&" _ eq_refl (QueryEscape_safe _)).
  rewrite !(all_bytes_count query_safe "?" _ eq_refl (QueryEscape_safe _)).
  rewrite !(all_bytes_count query_safe "#" _ eq_refl (QueryEscape_safe _)).
  rewrite !(all_bytes_count query_safe "/" _ eq_refl (QueryEscape_safe _)).
  repeat split.
Qed.

(** The separators in a joined list of pairs. *)
Lemma joined_pairs_counts (ps : list (bool * string * string)) :
  let q := json.join "&" (query_pairs ps) in
  let n := length (query_pairs ps) in
  count_byte "=" q = n
  /\ count_byte "&" q = pred n
  /\ count_byte "?" q = O
  /\ count_byte "#" q = O
  /\ count_byte "/" q = O.
Proof.
  cbv zeta. induction ps as [|[[b k] v] ps IH]; [repeat split|].
  rewrite query_pairs_cons. destruct b; [|exact IH].
  destruct (pair_counts k v) as (P1 & P2 & P3 & P4 & P5).
  destruct IH as (I1 & I2 & I3 & I4 & I5).
  remember (url.QueryEscape k +:+ "=" +:+ url.QueryEscape v) as pair.
  destruct (query_pairs ps) as [|x xs] eqn:Q.
  - simpl json.join. simpl length. auto.
  - change (json.join "&" (pair :: x :: xs))
      with (pair +:+ "&" +:+ json.join "&" (x :: xs)).
    remember (json.join "&" (x :: xs)) as rest.
    rewrite !count_byte_app, P1, P2, P3, P4, P5, I1, I2, I3, I4, I5.
    simpl. repeat split; lia.
Qed.

Lemma ListInvoices_path_closed_form (p : ListInvoicesParams) :
  ListInvoices_path p = ListInvoices_path_by_key p.
Proof.
  destruct p as [page size status currency after before sortBy sortOrder].
  unfold ListInvoices_path, ListInvoices_query, ListInvoices_path_by_key,
    path_with_query, query_pairs, param_page, param_page_size, param_status,
    param_currency, param_created_after, param_created_before, param_sort_by,
    param_sort_order, url.Encode, url.encode_key.
  cbn [ListInvoicesParams_Page ListInvoicesParams_PageSize
       ListInvoicesParams_Status ListInvoicesParams_Currency
       ListInvoicesParams_CreatedAfter ListInvoicesParams_CreatedBefore
       ListInvoicesParams_SortBy ListInvoicesParams_SortOrder].
  generalize (fmt_d page) (fmt_d size) (Time_Format_RFC3339 after)
    (Time_Format_RFC3339 before) url.QueryEscape.
  intros vpage vsize vafter vbefore esc.
  generalize (0 <? page)%Z, (0 <? size)%Z, (string_is_empty status),
    (string_is_empty currency), (Time_IsZero after), (Time_IsZero before),
    (string_is_empty sortBy), (string_is_empty sortOrder).
  intros b1 b2 b3 b4 b5 b6 b7 b8. clear.
  destruct b1, b2, b3, b4, b5, b6, b7, b8; vm_compute; reflexivity.
Qed.

Lemma length_query_pairs (ps : list (bool * string * string)) :
  length (query_pairs ps) =
  length (List.filter (fun b : bool => b) (List.map (fun p => fst (fst p)) ps)).
Proof.
  induction ps as [|[[b k] v] ps IH]; [reflexivity|].
  rewrite query_pairs_cons. simpl. destruct b; simpl; rewrite IH; reflexivity.
Qed.

(** X15: whatever the values of the filters, the path [ListInvoices]
    requests has one [=] per parameter sent, one [&] between two
    parameters, one [?] when there is a parameter and none otherwise,
    one [/] and no [#]: a value cannot add a parameter, a path segment
    or a fragment, because it is escaped. *)
Theorem ListInvoices_values_stay_inside_their_parameter
    (p : ListInvoicesParams) :
  let n :=
    length
      (List.filter (fun b : bool => b)
         [ negb (Time_IsZero (ListInvoicesParams_CreatedAfter p));
           negb (Time_IsZero (ListInvoicesParams_CreatedBefore p));
           negb (string_is_empty (ListInvoicesParams_Currency p));
           (0 <? ListInvoicesParams_Page p)%Z;
           (0 <? ListInvoicesParams_PageSize p)%Z;
           negb (string_is_empty (ListInvoicesParams_SortBy p));
           negb (string_is_empty (ListInvoicesParams_SortOrder p));
           negb (string_is_empty (ListInvoicesParams_Status p)) ]) in
  count_byte "=" (ListInvoices_path p) = n
  /\ count_byte "&" (ListInvoices_path p) = pred n
  /\ count_byte "?" (ListInvoices_path p) = Nat.min 1 n
  /\ count_byte "/" (ListInvoices_path p) = 1%nat
  /\ count_byte "#" (ListInvoices_path p) = O.
Proof.
  intros n. rewrite ListInvoices_path_closed_form.
  unfold ListInvoices_path_by_key, path_with_query.
  match goal with
  | |- context [query_pairs ?l] =>
      pose proof (joined_pairs_counts l) as J;
      pose proof (length_query_pairs l) as L; set (ps := l) in *
  end.
  cbv zeta in J. destruct J as (J1 & J2 & J3 & J4 & J5).
  assert (Ln : length (query_pairs ps) = n) by exact L.
  destruct (query_pairs ps) as [|x xs] eqn:Q.
  - simpl in Ln. rewrite <- Ln. repeat split.
  - rewrite !count_byte_app, J1, J2, J3, J4, J5, Ln.
    simpl in Ln. rewrite <- Ln. simpl. repeat split; lia.
Qed.

End Query.

(** ** Strings through the encoder and the decoder *)

Lemma append_assoc_string (a b c : string) :
  (a +:+ b) +:+ c = a +:+ (b +:+ c).
Proof.
  induction a as [|x a IH]; [reflexivity|].
  change (String x ((a +:+ b) +:+ c) = String x (a +:+ (b +:+ c))).
  f_equal. exact IH.
Qed.

Lemma quote_from_ascii (c : ascii) (r : string) :
  (byte_code c <? 128)%N = true ->
  json.quote_from json.Ready (String c r) =
  quoted_byte c +:+ json.quote_from json.Ready r.
Proof. intros Hc. simpl. rewrite Hc. reflexivity. Qed.

Lemma unquote_quoted_byte (c : ascii) (rest : string) :
  (byte_code c <? 128)%N = true ->
  json.unquote_from json.Ready (quoted_byte c +:+ rest) =
  option_map (String c) (json.unquote_from json.Ready rest).
Proof.
  destruct c as [[] [] [] [] [] [] [] []]; intros Hc;
    try (vm_compute in Hc; discriminate Hc); reflexivity.
Qed.

Lemma scan_bytes_app (st : json.scanner) (a b : string) :
  json.scan_bytes st (a +:+ b) =
  match json.scan_bytes st a with
  | Some st' => json.scan_bytes st' b
  | None => None
  end.
Proof.
  revert st. induction a as [|x a IH]; intros st; simpl; [reflexivity|].
  destruct (json.scan_step st x); [apply IH | reflexivity].
Qed.

(** Inside a string, the scanner takes the encoding of an ASCII byte as
    part of the string. *)
Lemma scan_quoted_byte (c : ascii) (ps : list json.frame) (lit : list ascii)
    (top : option json.Value) :
  (byte_code c <? 128)%N = true ->
  json.scan_bytes (json.mkScanner json.stateInString ps lit top)
    (quoted_byte c) =
  Some (json.mkScanner json.stateInString ps
          (rev (list_ascii_of_string (quoted_byte c)) ++ lit) top).
Proof.
  destruct c as [[] [] [] [] [] [] [] []]; intros Hc;
    try (vm_compute in Hc; discriminate Hc); reflexivity.
Qed.

Lemma list_ascii_of_string_app (a b : string) :
  list_ascii_of_string (a +:+ b) =
  list_ascii_of_string a ++ list_ascii_of_string b.
Proof.
  induction a as [|x a IH]; [reflexivity|].
  change (x :: list_ascii_of_string (a +:+ b) =
          x :: (list_ascii_of_string a ++ list_ascii_of_string b)).
  f_equal. exact IH.
Qed.

Lemma rev_string_rev (s : string) :
  rev_string (rev (list_ascii_of_string s) ++ []) = s.
Proof.
  unfold rev_string. rewrite app_nil_r, rev_involutive.
  apply string_of_list_ascii_of_string.
Qed.

Lemma compact_object1 (k v : string) :
  json.compact_object [(k, json.quote v)] = object1 k v.
Proof.
  unfold json.compact_object, json.quote, object1, str1. cbn [List.map json.join fst snd].
  change ("{" +:+ ?x) with (String "{" x).
  repeat first [ rewrite append_assoc_string
               | progress change (String ?c ?a +:+ ?b) with (String c (a +:+ b))
               | progress change (EmptyString +:+ ?b) with b ].
  reflexivity.
Qed.

Lemma compact_object2 (k1 v1 k2 v2 : string) :
  json.compact_object [(k1, json.quote v1); (k2, json.quote v2)] =
  object2 k1 v1 k2 v2.
Proof.
  unfold json.compact_object, json.quote, object2, str1. cbn [List.map json.join fst snd].
  change ("{" +:+ ?x) with (String "{" x).
  repeat first [ rewrite append_assoc_string
               | progress change (String ?c ?a +:+ ?b) with (String c (a +:+ b))
               | progress change (EmptyString +:+ ?b) with b ].
  reflexivity.
Qed.

Lemma high_byte_not (c x : ascii) :
  (byte_code c <? 128)%N = false ->
  (byte_code x <? 128)%N = true ->
  Ascii.eqb c x = false.
Proof.
  intros Hc Hx. destruct (Ascii.eqb_spec c x) as [->|]; [congruence | reflexivity].
Qed.

Lemma quote_from_high (c : ascii) (r : string) :
  (byte_code c <? 128)%N = false ->
  is_separator (String c r) = false ->
  json.quote_from json.Ready (String c r) =
  match utf8.decode_len (String c r) with
  | Some n => String c (json.quote_from (json.after (pred n) json.Keep) r)
  | None => String backslash "ufffd" +:+ json.quote_from json.Ready r
  end.
Proof.
  intros Hc Hsep.
  destruct c as [[] [] [] [] [] [] [] []];
    try (vm_compute in Hc; discriminate Hc);
    try reflexivity.
  destruct r as [|b1 r1]; [reflexivity|].
  destruct b1 as [[] [] [] [] [] [] [] []]; try reflexivity.
  destruct r1 as [|b2 r2]; [reflexivity|].
  destruct b2 as [[] [] [] [] [] [] [] []]; try reflexivity;
    vm_compute in Hsep; discriminate Hsep.
Qed.

Lemma in_range_high (lo hi : N) (b : ascii) :
  in_range lo hi b = true -> (128 <= lo)%N -> is_high b = true.
Proof.
  unfold in_range, is_high. intros E Hlo.
  apply andb_true_iff in E. destruct E as [E _]. apply N.leb_le in E.
  apply negb_true_iff, N.ltb_ge. lia.
Qed.

Ltac high_lo :=
  repeat match goal with
         | |- context [if ?b then _ else _] => destruct b
         end; lia.

Lemma decode_len_prefix (c : ascii) (r : string) (n : nat) :
  (byte_code c <? 128)%N = false ->
  utf8.decode_len (String c r) = Some n ->
  exists bytes rest,
    r = bytes +:+ rest
    /\ String.length bytes = pred n
    /\ bytes <> EmptyString
    /\ all_bytes is_high bytes = true
    /\ forall X, utf8.decode_len (String c (bytes +:+ X)) = Some n.
Proof.
  intros Hc. unfold utf8.decode_len. rewrite Hc.
  destruct (byte_code c <? 194)%N eqn:C1; [discriminate|].
  destruct (byte_code c <? 224)%N eqn:C2.
  { destruct r as [|b1 r1]; [discriminate|].
    unfold utf8.cont, utf8.accept2.
    destruct (in_range 128 191 b1) eqn:E1; [|discriminate].
    intros E. injection E as <-. exists (str1 b1), r1.
    split; [reflexivity|]. split; [reflexivity|]. split; [discriminate|].
    split; [cbn; rewrite (in_range_high _ _ _ E1) by high_lo; reflexivity|].
    intros X. change (str1 b1 +:+ X) with (String b1 X).
    cbv beta iota zeta. rewrite E1. reflexivity. }
  destruct (byte_code c <? 240)%N eqn:C3.
  { destruct r as [|b1 [|b2 r2]]; unfold utf8.cont, utf8.accept2, utf8.tail;
      try (rewrite ?andb_false_r; discriminate).
    destruct (in_range _ _ b1) eqn:E1; [|discriminate].
    destruct (in_range 128 191 b2) eqn:E2; [|discriminate].
    intros E. injection E as <-. exists (String b1 (str1 b2)), r2.
    split; [reflexivity|]. split; [reflexivity|]. split; [discriminate|].
    split; [cbn; rewrite (in_range_high _ _ _ E1), (in_range_high _ _ _ E2)
              by high_lo; reflexivity|].
    intros X. change (String b1 (str1 b2) +:+ X) with (String b1 (String b2 X)).
    cbv beta iota zeta. rewrite E1, E2. reflexivity. }
  destruct (byte_code c <? 245)%N eqn:C4; [|discriminate].
  destruct r as [|b1 [|b2 [|b3 r3]]]; unfold utf8.cont, utf8.accept2, utf8.tail;
    try (rewrite ?andb_false_r; discriminate).
  destruct (in_range _ _ b1) eqn:E1; [|discriminate].
  destruct (in_range 128 191 b2) eqn:E2; [|discriminate].
  destruct (in_range 128 191 b3) eqn:E3; [|discriminate].
  intros E. injection E as <-. exists (String b1 (String b2 (str1 b3))), r3.
  split; [reflexivity|]. split; [reflexivity|]. split; [discriminate|].
  split; [cbn; rewrite (in_range_high _ _ _ E1), (in_range_high _ _ _ E2),
            (in_range_high _ _ _ E3) by high_lo; reflexivity|].
  intros X.
  change (String b1 (String b2 (str1 b3)) +:+ X)
    with (String b1 (String b2 (String b3 X))).
  cbv beta iota zeta. rewrite E1, E2, E3. reflexivity.
Qed.

Lemma quote_from_keep (bytes rest : string) :
  bytes <> EmptyString ->
  json.quote_from (json.Keep (String.length bytes)) (bytes +:+ rest) =
  bytes +:+ json.quote_from json.Ready rest.
Proof.
  induction bytes as [|b bytes IH]; [congruence|]. intros _.
  destruct bytes as [|b' bytes']; [reflexivity|].
  change (String b (json.quote_from (json.Keep (String.length (String b' bytes')))
                      (String b' bytes' +:+ rest)) =
          String b (String b' bytes' +:+ json.quote_from json.Ready rest)).
  f_equal. apply IH. discriminate.
Qed.

Lemma unquote_from_keep (bytes X : string) :
  bytes <> EmptyString ->
  json.unquote_from (json.Keep (String.length bytes)) (bytes +:+ X) =
  option_map (String.append bytes) (json.unquote_from json.Ready X).
Proof.
  induction bytes as [|b bytes IH]; [congruence|]. intros _.
  destruct bytes as [|b' bytes'].
  - change (option_map (String b) (json.unquote_from json.Ready X) =
            option_map (String.append (str1 b))
              (json.unquote_from json.Ready X)).
    destruct (json.unquote_from json.Ready X); reflexivity.
  - change (option_map (String b)
              (json.unquote_from
                 (json.Keep (String.length (String b' bytes')))
                 (String b' bytes' +:+ X)) =
            option_map (String.append (String b (String b' bytes')))
              (json.unquote_from json.Ready X)).
    rewrite IH by discriminate.
    destruct (json.unquote_from json.Ready X); reflexivity.
Qed.

Lemma utf8_valid_from_skip (bytes rest : string) :
  utf8_valid_from (String.length bytes) (bytes +:+ rest) =
  utf8_valid_from 0 rest.
Proof. induction bytes as [|b bytes IH]; [reflexivity | exact IH]. Qed.

Lemma unquote_from_high (c : ascii) (r : string) (n : nat) :
  (byte_code c <? 128)%N = false ->
  utf8.decode_len (String c r) = Some n ->
  json.unquote_from json.Ready (String c r) =
  option_map (String c)
    (json.unquote_from (json.after (pred n) json.Keep) r).
Proof.
  intros Hc Hd. cbn [json.unquote_from].
  rewrite (high_byte_not c backslash Hc eq_refl),
    (high_byte_not c dquote Hc eq_refl).
  assert (H32 : (byte_code c <? 32)%N = false).
  { apply N.ltb_ge. apply N.ltb_ge in Hc. lia. }
  rewrite H32, Hc. cbn [orb]. rewrite Hd. reflexivity.
Qed.

Lemma decode_len_ascii (c : ascii) (r : string) :
  (byte_code c <? 128)%N = true -> utf8.decode_len (String c r) = Some 1%nat.
Proof. intros Hc. unfold utf8.decode_len. rewrite Hc. reflexivity. Qed.

Lemma is_separator_inv (s : string) :
  is_separator s = true ->
  exists d rest,
    s = String "226" (String "128" (String d rest))
    /\ (d = "168"%char \/ d = "169"%char).
Proof.
  destruct s as [|a [|b [|d rest]]]; try discriminate. cbn [is_separator].
  intros E. apply andb_true_iff in E. destruct E as [E D].
  apply andb_true_iff in E. destruct E as [A B].
  apply Ascii.eqb_eq in A, B. subst a b. exists d, rest.
  split; [reflexivity|]. apply orb_true_iff in D.
  destruct D as [D|D]; apply Ascii.eqb_eq in D; auto.
Qed.

Lemma after_length (bytes : string) :
  bytes <> EmptyString ->
  json.after (String.length bytes) json.Keep = json.Keep (String.length bytes).
Proof. destruct bytes; [congruence | reflexivity]. Qed.

Lemma length_append (a b : string) :
  String.length (a +:+ b) = (String.length a + String.length b)%nat.
Proof.
  induction a as [|x a IH]; [reflexivity|].
  change (S (String.length (a +:+ b)) = S (String.length a + String.length b)).
  f_equal. exact IH.
Qed.

(** The encoder's text for a well-formed string unquotes to the string. *)
Lemma unquote_quote_valid (s : string) :
  utf8_valid s = true ->
  json.unquote (json.quote_from json.Ready s) = Some s.
Proof.
  unfold json.unquote, utf8_valid.
  remember (String.length s) as len eqn:L. revert s L.
  induction len as [len IH] using lt_wf_ind. intros s L V.
  destruct s as [|c r]; [reflexivity|].
  destruct (byte_code c <? 128)%N eqn:Hc.
  - cbn [utf8_valid_from] in V. rewrite (decode_len_ascii c r Hc) in V.
    rewrite (quote_from_ascii c r Hc), (unquote_quoted_byte c _ Hc).
    rewrite (IH (String.length r)); [reflexivity | subst len; simpl; lia
                                     | reflexivity | exact V].
  - destruct (is_separator (String c r)) eqn:Sep.
    + destruct (is_separator_inv _ Sep) as (d & rest & E & D).
      injection E as -> ->.
      assert (R : json.unquote_from json.Ready
                    (json.quote_from json.Ready rest) = Some rest).
      { apply (IH (String.length rest)); [subst len; simpl; lia | reflexivity|].
        destruct D as [-> | ->]; exact V. }
      destruct D as [-> | ->].
      * change (option_map
                  (String.append (String "226" (String "128" (str1 "168"))))
                  (json.unquote_from json.Ready
                     (json.quote_from json.Ready rest)) = 
                Some (String "226" (String "128" (String "168" rest)))).
        rewrite R. reflexivity.
      * change (option_map
                  (String.append (String "226" (String "128" (str1 "169"))))
                  (json.unquote_from json.Ready
                     (json.quote_from json.Ready rest)) = 
                Some (String "226" (String "128" (String "169" rest)))).
        rewrite R. reflexivity.
    + rewrite (quote_from_high c r Hc Sep).
      cbn [utf8_valid_from] in V.
      destruct (utf8.decode_len (String c r)) as [n|] eqn:Dn; [|discriminate].
      destruct (decode_len_prefix c r n Hc Dn)
        as (bytes & rest & -> & Ln & Ne & _ & Dx).
      rewrite <- Ln in *. rewrite utf8_valid_from_skip in V.
      rewrite (after_length bytes Ne), (quote_from_keep bytes _ Ne).
      rewrite (unquote_from_high c _ n Hc (Dx _)).
      rewrite <- Ln, (after_length bytes Ne), (unquote_from_keep bytes _ Ne).
      rewrite (IH (String.length rest)); [reflexivity | | reflexivity | exact V].
      subst len. simpl. rewrite length_append. destruct bytes; [congruence|].
      simpl. lia.
Qed.

Lemma scan_high_byte (c : ascii) (ps : list json.frame) (lit : list ascii)
    (top : option json.Value) :
  is_high c = true ->
  json.scan_step (json.mkScanner json.stateInString ps lit top) c =
  Some (json.mkScanner json.stateInString ps (c :: lit) top).
Proof.
  unfold is_high. intros Hc. apply negb_true_iff in Hc.
  unfold json.scan_step. cbn [json.sc_step].
  rewrite (high_byte_not c dquote Hc eq_refl),
    (high_byte_not c backslash Hc eq_refl).
  assert (H32 : (byte_code c <? 32)%N = false).
  { apply N.ltb_ge. apply N.ltb_ge in Hc. lia. }
  rewrite H32. reflexivity.
Qed.

Lemma scan_high_bytes (hs : string) (ps : list json.frame) (lit : list ascii)
    (top : option json.Value) :
  all_bytes is_high hs = true ->
  json.scan_bytes (json.mkScanner json.stateInString ps lit top) hs =
  Some (json.mkScanner json.stateInString ps
          (rev (list_ascii_of_string hs) ++ lit) top).
Proof.
  revert lit. induction hs as [|c hs IH]; intros lit; [reflexivity|].
  cbn [all_bytes]. intros Hs. apply andb_true_iff in Hs. destruct Hs as [Hc Hs].
  cbn [json.scan_bytes]. rewrite (scan_high_byte c ps lit top Hc), (IH _ Hs).
  cbn [list_ascii_of_string rev]. rewrite <- app_assoc. reflexivity.
Qed.

(** Inside a string, the scanner takes the encoder's text for a
    well-formed string as part of the string. *)
Lemma scan_quoted_valid (s : string) (ps : list json.frame)
    (lit : list ascii) (top : option json.Value) :
  utf8_valid s = true ->
  json.scan_bytes (json.mkScanner json.stateInString ps lit top)
    (json.quote_from json.Ready s) =
  Some (json.mkScanner json.stateInString ps
          (rev (list_ascii_of_string (json.quote_from json.Ready s)) ++ lit)
          top).
Proof.
  unfold utf8_valid.
  remember (String.length s) as len eqn:L. revert s L lit.
  induction len as [len IH] using lt_wf_ind. intros s L lit V.
  destruct s as [|c r]; [reflexivity|].
  destruct (byte_code c <? 128)%N eqn:Hc.
  - cbn [utf8_valid_from] in V. rewrite (decode_len_ascii c r Hc) in V.
    rewrite (quote_from_ascii c r Hc), scan_bytes_app,
      (scan_quoted_byte c _ _ _ Hc).
    rewrite (IH (String.length r)); [| subst len; simpl; lia
                                     | reflexivity | exact V].
    rewrite list_ascii_of_string_app, rev_app_distr, app_assoc. reflexivity.
  - destruct (is_separator (String c r)) eqn:Sep.
    + destruct (is_separator_inv _ Sep) as (d & rest & E & D).
      injection E as -> ->.
      assert (R : forall lit',
                 json.scan_bytes
                   (json.mkScanner json.stateInString ps lit' top)
                   (json.quote_from json.Ready rest) =
                 Some (json.mkScanner json.stateInString ps
                         (rev (list_ascii_of_string
                                 (json.quote_from json.Ready rest)) ++ lit')
                         top)).
      { intros lit'. apply (IH (String.length rest));
          [subst len; simpl; lia | reflexivity|].
        destruct D as [-> | ->]; exact V. }
      destruct D as [-> | ->].
      * change (json.quote_from json.Ready
                  (String "226" (String "128" (String "168" rest))))
          with (String backslash "u2028" +:+ json.quote_from json.Ready rest).
        rewrite scan_bytes_app.
        change (json.scan_bytes
                  (json.mkScanner json.stateInString ps lit top)
                  (String backslash "u2028"))
          with (Some (json.mkScanner json.stateInString ps
                        (rev (list_ascii_of_string (String backslash "u2028"))
                         ++ lit) top)).
        cbv beta iota.
        rewrite R, list_ascii_of_string_app, rev_app_distr, app_assoc.
        reflexivity.
      * change (json.quote_from json.Ready
                  (String "226" (String "128" (String "169" rest))))
          with (String backslash "u2029" +:+ json.quote_from json.Ready rest).
        rewrite scan_bytes_app.
        change (json.scan_bytes
                  (json.mkScanner json.stateInString ps lit top)
                  (String backslash "u2029"))
          with (Some (json.mkScanner json.stateInString ps
                        (rev (list_ascii_of_string (String backslash "u2029"))
                         ++ lit) top)).
        cbv beta iota.
        rewrite R, list_ascii_of_string_app, rev_app_distr, app_assoc.
        reflexivity.
    + rewrite (quote_from_high c r Hc Sep).
      cbn [utf8_valid_from] in V.
      destruct (utf8.decode_len (String c r)) as [n|] eqn:Dn; [|discriminate].
      destruct (decode_len_prefix c r n Hc Dn)
        as (bytes & rest & -> & Ln & Ne & Hb & _).
      rewrite <- Ln in *. rewrite utf8_valid_from_skip in V.
      rewrite (after_length bytes Ne), (quote_from_keep bytes _ Ne).
      cbn [json.scan_bytes].
      rewrite (scan_high_byte c ps lit top)
        by (unfold is_high; rewrite Hc; reflexivity).
      rewrite scan_bytes_app, (scan_high_bytes bytes _ _ _ Hb).
      rewrite (IH (String.length rest)); [| | reflexivity | exact V].
      * cbn [list_ascii_of_string rev].
        rewrite list_ascii_of_string_app, rev_app_distr, <- !app_assoc.
        reflexivity.
      * subst len. simpl. rewrite length_append. destruct bytes; [congruence|].
        simpl. lia.
Qed.

Lemma scan_quoted_value_valid (s rest : string)
    (ps : list json.frame) (top : option json.Value) :
  utf8_valid s = true ->
  json.scan_bytes (json.mkScanner json.stateInString ps [] top)
    (json.quote_from json.Ready s +:+ String dquote rest) =
  match json.end_scalar (json.Str (json.quote_from json.Ready s))
          (json.mkScanner json.stateInString ps [] top) with
  | Some st' => json.scan_bytes st' rest
  | None => None
  end.
Proof.
  intros Hs. rewrite scan_bytes_app, (scan_quoted_valid s ps [] top Hs).
  assert (E : forall lit,
             json.scan_step (json.mkScanner json.stateInString ps lit top)
               dquote =
             json.end_scalar (json.Str (rev_string lit))
               (json.mkScanner json.stateInString ps lit top))
    by reflexivity.
  cbn [json.scan_bytes]. rewrite E. unfold json.end_scalar.
  cbn [json.parseState json.sc_top]. rewrite rev_string_rev. reflexivity.
Qed.

Ltac scan_valid_string Hs :=
  rewrite (scan_quoted_value_valid _ _ _ _ Hs);
  match goal with
  | |- context [json.end_scalar ?v ?st] =>
      let r := eval cbv [json.end_scalar json.complete json.parseState
                         json.sc_top] in (json.end_scalar v st) in
      change (json.end_scalar v st) with r
  end; cbv beta iota.

Lemma parse_object1_valid (k v : string) :
  utf8_valid k = true -> utf8_valid v = true ->
  json.parse (object1 k v) =
  Some (json.Object [(json.quote_from json.Ready k,
                      json.Str (json.quote_from json.Ready v))]).
Proof.
  intros Hk Hv. unfold json.parse, object1.
  change (json.scan_bytes json.scan_init (String "{" (String dquote ?x)))
    with (json.scan_bytes
            (json.mkScanner json.stateInString [json.parseObjectKey [] None]
               [] None) x).
  scan_valid_string Hk.
  match goal with
  | |- context [json.scan_bytes ?st (String ":" (String dquote ?x))] =>
      change (json.scan_bytes st (String ":" (String dquote x)))
        with (json.scan_bytes
                (json.mkScanner json.stateInString
                   [json.parseObjectValue []
                      (Some (json.quote_from json.Ready k))] [] None) x)
  end.
  scan_valid_string Hv. reflexivity.
Qed.

Lemma parse_object2_valid (k1 v1 k2 v2 : string) :
  utf8_valid k1 = true -> utf8_valid v1 = true ->
  utf8_valid k2 = true -> utf8_valid v2 = true ->
  json.parse (object2 k1 v1 k2 v2) =
  Some (json.Object [(json.quote_from json.Ready k1,
                      json.Str (json.quote_from json.Ready v1));
                     (json.quote_from json.Ready k2,
                      json.Str (json.quote_from json.Ready v2))]).
Proof.
  intros Hk1 Hv1 Hk2 Hv2. unfold json.parse, object2.
  change (json.scan_bytes json.scan_init (String "{" (String dquote ?x)))
    with (json.scan_bytes
            (json.mkScanner json.stateInString [json.parseObjectKey [] None]
               [] None) x).
  scan_valid_string Hk1.
  match goal with
  | |- context [json.scan_bytes ?st (String ":" (String dquote ?x))] =>
      change (json.scan_bytes st (String ":" (String dquote x)))
        with (json.scan_bytes
                (json.mkScanner json.stateInString
                   [json.parseObjectValue []
                      (Some (json.quote_from json.Ready k1))] [] None) x)
  end.
  scan_valid_string Hv1.
  match goal with
  | |- context [json.scan_bytes ?st (String "," (String dquote ?x))] =>
      change (json.scan_bytes st (String "," (String dquote x)))
        with (json.scan_bytes
                (json.mkScanner json.stateInString
                   [json.parseObjectKey
                      [(json.quote_from json.Ready k1,
                        json.Str (json.quote_from json.Ready v1))] None]
                   [] None) x)
  end.
  scan_valid_string Hk2.
  match goal with
  | |- context [json.scan_bytes ?st (String ":" (String dquote ?x))] =>
      change (json.scan_bytes st (String ":" (String dquote x)))
        with (json.scan_bytes
                (json.mkScanner json.stateInString
                   [json.parseObjectValue
                      [(json.quote_from json.Ready k1,
                        json.Str (json.quote_from json.Ready v1))]
                      (Some (json.quote_from json.Ready k2))] [] None) x)
  end.
  scan_valid_string Hv2. reflexivity.
Qed.

Section RoundTrips.
Context `{GoDecoders}.

(** X16: the bodies of [UpdateInvoiceStatus] and [SimulateWebhook] are
    well-formed JSON that reads back as the strings given: for a status
    (and an invoice id) in well-formed UTF-8, the serialized payload
    parses as an object whose only members are [status] (and before it
    [invoice_id]), and unquoting their values gives exactly the caller's
    strings, control characters, quotes and letters of any script
    included. *)
Theorem string_payloads_read_back (invoiceID status : string) :
  utf8_valid invoiceID = true ->
  utf8_valid status = true ->
  (exists body k v,
      json_Marshal
        (UpdateInvoicePayload {| UpdateInvoiceRequest_Status := status |}) =
        Some body
      /\ json.parse body = Some (json.Object [(k, json.Str v)])
      /\ json.unquote k = Some "status"
      /\ json.unquote v = Some status)
  /\ (exists body k1 v1 k2 v2,
         json_Marshal
           (WebhookSimulatePayload
              {| WebhookSimulateRequest_InvoiceID := invoiceID;
                 WebhookSimulateRequest_Status := status |}) = Some body
         /\ json.parse body =
            Some (json.Object [(k1, json.Str v1); (k2, json.Str v2)])
         /\ json.unquote k1 = Some "invoice_id"
         /\ json.unquote v1 = Some invoiceID
         /\ json.unquote k2 = Some "status"
         /\ json.unquote v2 = Some status).
Proof.
  intros Hi Hs. split.
  - exists (object1 "status" status). do 2 eexists.
    split; [|split; [apply parse_object1_valid; auto|]].
    + rewrite <- compact_object1. reflexivity.
    + split; apply unquote_quote_valid; auto.
  - exists (object2 "invoice_id" invoiceID "status" status). do 4 eexists.
    split; [|split; [apply parse_object2_valid; auto|]].
    + rewrite <- compact_object2. reflexivity.
    + repeat split; apply unquote_quote_valid; auto.
Qed.

Lemma ErrorResponse_read_back (e m : string) :
  utf8_valid e = true -> utf8_valid m = true ->
  json_Unmarshal_ErrorResponse
    (json.compact_object [("error", json.quote e); ("message", json.quote m)]) =
  Some {| ErrorResponse_Error := e; ErrorResponse_Message := m |}.
Proof.
  intros He Hm. unfold json_Unmarshal_ErrorResponse, json.Unmarshal.
  rewrite compact_object2, parse_object2_valid by auto.
  cbn [json.decode_struct json.decode_members].
  rewrite (unquote_quote_valid "error" eq_refl).
  change (json.find_field ErrorResponse_fields "error")
    with (Some (snd (nth 0 ErrorResponse_fields ("", fun _ t => Some t)))).
  cbn [nth ErrorResponse_fields snd json.string_field].
  rewrite (unquote_quote_valid e He). cbn [option_map].
  rewrite (unquote_quote_valid "message" eq_refl).
  change (json.find_field ErrorResponse_fields "message")
    with (Some (snd (nth 1 ErrorResponse_fields ("", fun _ t => Some t)))).
  cbn [nth ErrorResponse_fields snd json.string_field].
  rewrite (unquote_quote_valid m Hm). reflexivity.
Qed.

(** X17: an error type and a message sent as the compact JSON object
    with the members [error] and [message] arrive intact: for texts in
    well-formed UTF-8, in any script, and a status of 400 or more, every
    endpoint method returns the API error with that status, that type
    and that message. *)
Theorem error_type_and_message_arrive_intact
    (c : Client) (ctx : Context_) (k : call) (tr : trace)
    (status : Z) (e m : string) :
  utf8_valid e = true ->
  utf8_valid m = true ->
  answered (invoke c ctx k) tr status
    (json.compact_object [("error", json.quote e); ("message", json.quote m)]) ->
  (400 <= status)%Z ->
  fst (invoke c ctx k tr) =
  Fail (API {| APIError_StatusCode := status;
               APIError_ErrorType := e;
               APIError_Message := m |}).
Proof.
  intros He Hm Ha Hs. apply invoke_fail.
  rewrite (invoke_answered c ctx k tr status _ Ha).
  exact (interpret_structured status _ _ Hs (ErrorResponse_read_back e m He Hm)).
Qed.

Lemma WebhookSimulateResponse_read_back (st m : string) :
  utf8_valid st = true -> utf8_valid m = true ->
  json_Unmarshal_WebhookSimulateResponse
    (json.compact_object [("status", json.quote st); ("message", json.quote m)]) =
  Some {| WebhookSimulateResponse_Status := st;
          WebhookSimulateResponse_Message := m |}.
Proof.
  intros Hs Hm. unfold json_Unmarshal_WebhookSimulateResponse, json.Unmarshal.
  rewrite compact_object2, parse_object2_valid by auto.
  cbn [json.decode_struct json.decode_members].
  rewrite (unquote_quote_valid "status" eq_refl).
  change (json.find_field WebhookSimulateResponse_fields "status")
    with (Some (snd (nth 0 WebhookSimulateResponse_fields
                       ("", fun _ t => Some t)))).
  cbn [nth WebhookSimulateResponse_fields snd json.string_field].
  rewrite (unquote_quote_valid st Hs). cbn [option_map].
  rewrite (unquote_quote_valid "message" eq_refl).
  change (json.find_field WebhookSimulateResponse_fields "message")
    with (Some (snd (nth 1 WebhookSimulateResponse_fields
                       ("", fun _ t => Some t)))).
  cbn [nth WebhookSimulateResponse_fields snd json.string_field].
  rewrite (unquote_quote_valid m Hm). reflexivity.
Qed.

(** X18: [SimulateWebhook] returns the status and the message of a
    successful response as they were sent: for texts in well-formed
    UTF-8 in the compact object with the members [status] and [message]
    and a status code below 400, the result holds exactly those two
    strings. *)
Theorem SimulateWebhook_returns_the_response_fields
    (c : Client) (ctx : Context_) (invoiceID status : string) (tr : trace)
    (code : Z) (st m : string) :
  utf8_valid st = true ->
  utf8_valid m = true ->
  answered (SimulateWebhook c ctx invoiceID status) tr code
    (json.compact_object [("status", json.quote st); ("message", json.quote m)]) ->
  (code < 400)%Z ->
  fst (SimulateWebhook c ctx invoiceID status tr) =
  Ok {| WebhookSimulateResponse_Status := st;
        WebhookSimulateResponse_Message := m |}.
Proof.
  intros Hs Hm Ha Hc.
  etransitivity;
    [exact (status_below_400' c ctx (Call_SimulateWebhook invoiceID status) tr
              code _ Ha Hc)|].
  cbn [call_decoder]. rewrite WebhookSimulateResponse_read_back by auto.
  reflexivity.
Qed.

(** Members none of whose keys selects a field leave the target as it
    was. *)
Lemma decode_members_unknown {T : Type} (fields : list (string * json.setter T))
    (ms : list (string * json.Value)) (t : T) :
  Forall (fun m => exists key, json.unquote (fst m) = Some key
                               /\ json.find_field fields key = None) ms ->
  json.decode_members fields ms t = Some t.
Proof.
  induction 1 as [|[rawkey v] ms (key & U & F) _ IH]; [reflexivity|].
  simpl in U. cbn [json.decode_members]. rewrite U, F. exact IH.
Qed.

(** X19: an error response whose body is a JSON object with neither an
    [error] nor a [message] member (the empty object included) gives an
    API error with the status, an empty type and an empty message, whose
    [Error()] text is empty. *)
Theorem error_object_without_known_members
    (c : Client) (ctx : Context_) (k : call) (tr : trace)
    (status : Z) (body : string) (ms : list (string * json.Value)) :
  answered (invoke c ctx k) tr status body ->
  (400 <= status)%Z ->
  json.parse body = Some (json.Object ms) ->
  Forall (fun m => exists key,
              json.unquote (fst m) = Some key
              /\ json.find_field ErrorResponse_fields key = None) ms ->
  fst (invoke c ctx k tr) =
    Fail (API {| APIError_StatusCode := status;
                 APIError_ErrorType := "";
                 APIError_Message := "" |})
  /\ APIError_Error {| APIError_StatusCode := status;
                       APIError_ErrorType := "";
                       APIError_Message := "" |} = "".
Proof.
  intros Ha Hs Hp Hm. split; [|reflexivity].
  apply invoke_fail. rewrite (invoke_answered c ctx k tr status _ Ha).
  apply (interpret_structured status body ErrorResponse_zero Hs).
  unfold json_Unmarshal_ErrorResponse, json.Unmarshal. rewrite Hp.
  cbn [json.decode_struct]. apply decode_members_unknown, Hm.
Qed.

End RoundTrips.

(** * The package on the example environment *)

#[local] Existing Instance Example.types.
#[local] Existing Instance Example.decoders.

(** An empty object, or [null], decodes: the error then has an empty
    type and an empty message. *)
Example empty_object_decodes :
  json_Unmarshal_ErrorResponse "{}" = Some ErrorResponse_zero
  /\ json_Unmarshal_ErrorResponse "null" = Some ErrorResponse_zero
  /\ json_Unmarshal_ErrorResponse "[]" = None.
Proof. vm_compute. auto. Qed.

(** The body sent for a request with no amounts and an explicit zero
    tolerance. *)
Example request_without_amount_body :
  json_Marshal (CreateInvoicePayload Example.request_without_amount) =
  Some ("{" +:+ Example.q "order_id" +:+ ":" +:+ Example.q "ORDER-1" +:+ ","
            +:+ Example.q "currency" +:+ ":" +:+ Example.q "BTC" +:+ ","
            +:+ Example.q "allowed_error_percent" +:+ ":0}").
Proof. vm_compute. reflexivity. Qed.

(** A request the encoder refuses is still announced on standard output,
    with an empty payload, and nothing is sent. *)
Example CreateInvoice_with_NaN_trace :
  snd (CreateInvoice (Example.client 200 "{}") tt Example.request_with_NaN []) =
  [Stdout ("DEBUG: Creating invoice with request:" +:+ newline +:+ newline)].
Proof. reflexivity. Qed.

(** C1, counterexample: a 500 response with body [not json] does not
    give the API error with status 500, empty type and message
    [not json]; it gives a plain error. *)
Lemma not_json_body_is_not_an_APIError :
  answered (doRequest (Example.client 500 "not json") tt "GET" "/rates" None)
    [] 500 "not json"
  /\ json_Unmarshal_ErrorResponse "not json" = None
  /\ fst (doRequest (Example.client 500 "not json") tt "GET" "/rates" None [])
     <> Fail (API {| APIError_StatusCode := 500;
                     APIError_ErrorType := "";
                     APIError_Message := "not json" |})
  /\ fst (invoke (Example.client 500 "not json") tt Call_GetRates [])
     <> Fail (API {| APIError_StatusCode := 500;
                     APIError_ErrorType := "";
                     APIError_Message := "not json" |}).
Proof.
  split; [exists []; eexists; reflexivity|].
  split; [reflexivity|].
  assert (Ed : fst (doRequest (Example.client 500 "not json") tt "GET" "/rates"
                      None []) = Fail (Plain "HTTP 500: not json"))
    by reflexivity.
  assert (Ei : fst (invoke (Example.client 500 "not json") tt Call_GetRates [])
               = Fail (Plain "HTTP 500: not json"))
    by reflexivity.
  rewrite Ed, Ei. split; discriminate.
Qed.

(** C1 on the example network: status 500, body [not json]. *)
Lemma undecodable_error_body_witness :
  fst (doRequest (Example.client 500 "not json") tt "GET" "/rates" None []) =
    Fail (Plain "HTTP 500: not json")
  /\ fst (invoke (Example.client 500 "not json") tt Call_GetRates []) =
    Fail (Plain "HTTP 500: not json").
Proof.
  destruct (undecodable_error_body_gives_plain_error
              (Example.client 500 "not json") tt [] 500 "not json"
              ltac:(lia) eq_refl) as [Hd Hi].
  split.
  - apply (Hd "GET" "/rates" None). exists []. eexists. reflexivity.
  - apply (Hi Call_GetRates). exists []. eexists. reflexivity.
Defined.

(** C2 on the example network: status 401 and the [invalid_key] body. *)
Lemma invalid_key_witness :
  fst (invoke (Example.client 401 Example.invalid_key_body) tt
         (Call_GetInvoice "inv_1") []) =
  Fail (API {| APIError_StatusCode := 401;
               APIError_ErrorType := "invalid_key";
               APIError_Message := "API key is invalid" |}).
Proof.
  apply (structured_error_body_gives_APIError
           (Example.client 401 Example.invalid_key_body) tt
           (Call_GetInvoice "inv_1") [] 401 Example.invalid_key_body
           {| ErrorResponse_Error := "invalid_key";
              ErrorResponse_Message := "API key is invalid" |}).
  - exists []. eexists. reflexivity.
  - lia.
  - reflexivity.
Defined.

(** C3, counterexample: the id [a/b?c] reaches the URL as it is, adding
    a path segment and a query, where its escaped form is [a%2Fb%3Fc]. *)
Lemma reserved_characters_in_id_reach_the_URL :
  sent_urls (snd (GetInvoice (Example.client 200 "{}") tt "a/b?c" [])) =
    ["https://api.itispay.com/api/v1/invoices/a/b?c"]
  /\ sent_urls
       (snd (UpdateInvoiceStatus (Example.client 200 "{}") tt "a/b?c"
               "cancelled" [])) =
    ["https://api.itispay.com/api/v1/invoices/a/b?c"]
  /\ url.PathEscape "a/b?c" = "a%2Fb%3Fc"
  /\ invoice_path "a/b?c" <> "/invoices/" +:+ url.PathEscape "a/b?c".
Proof.
  split; [reflexivity|].
  split; [reflexivity|].
  split; [reflexivity|].
  unfold invoice_path. intros E. discriminate E.
Qed.

(** C4, counterexample: with Page 1 and Currency BTC the query has
    [currency] before [page], not after it. *)
Lemma query_order_is_not_the_precedence_order :
  ListInvoices_path Example.page_and_currency = "/invoices?currency=BTC&page=1"
  /\ ListInvoices_path_in_precedence Example.page_and_currency =
     "/invoices?page=1&currency=BTC"
  /\ ListInvoices_path Example.page_and_currency <>
     ListInvoices_path_in_precedence Example.page_and_currency.
Proof.
  assert (E1 : ListInvoices_path Example.page_and_currency =
               "/invoices?currency=BTC&page=1") by (vm_compute; reflexivity).
  assert (E2 : ListInvoices_path_in_precedence Example.page_and_currency =
               "/invoices?page=1&currency=BTC") by (vm_compute; reflexivity).
  rewrite E1, E2. repeat split. discriminate.
Qed.

(** C6 on a request with no amounts and an explicit zero tolerance. *)
Lemma optional_fields_witness :
  exists ms : list (string * string),
    json.emitted_members (CreateInvoiceRequest_json Example.request_without_amount)
      = Some ms
    /\ "{" +:+ Example.q "order_id" +:+ ":" +:+ Example.q "ORDER-1" +:+ ","
           +:+ Example.q "currency" +:+ ":" +:+ Example.q "BTC" +:+ ","
           +:+ Example.q "allowed_error_percent" +:+ ":0}"
       = json.compact_object ms
    /\ ~ In "fiat_amount" (List.map fst ms)
    /\ In ("allowed_error_percent", "0") ms.
Proof.
  destruct (optional_fields_are_omitted_when_unset
              Example.request_without_amount _ request_without_amount_body)
    as (ms & E & B & Hf & _ & _ & _ & _ & _ & Ha & _).
  exists ms. split; [exact E|]. split; [exact B|]. split.
  - intros I. apply Hf in I. apply I. reflexivity.
  - apply (Ha 0%Z). reflexivity.
Defined.

(** C7 on a two-element array. *)
Lemma currencies_witness :
  fst (GetCurrencies (Example.client 200 Example.currencies_body) tt []) =
  Ok {| CurrenciesResponse_Currencies :=
          [ {| Currency_CurrencyCode := "BTC"; Currency_IsCrypto := true;
               Currency_Precision := 8; Currency_IsActive := false;
               Currency_WalletPattern := ""; Currency_Network := "";
               Currency_CreatedAt :=
                 {| Example.year := 2024; Example.month := 2;
                    Example.day := 29; Example.hour := 12;
                    Example.minute := 0; Example.second := 0 |} |};
            {| Currency_CurrencyCode := "EUR"; Currency_IsCrypto := false;
               Currency_Precision := 0; Currency_IsActive := false;
               Currency_WalletPattern := ""; Currency_Network := "";
               Currency_CreatedAt := Example.utc_zero |} ] |}.
Proof.
  eapply (GetCurrencies_wraps_the_array_in_order
            (Example.client 200 Example.currencies_body) tt [] 200
            Example.currencies_body).
  - exists []. eexists. reflexivity.
  - lia.
  - vm_compute. reflexivity.
  - repeat constructor.
Defined.

(** C8 on a request whose fiat amount is NaN. *)
Lemma marshal_failure_witness :
  doRequest (Example.client 200 "{}") tt "POST" "/invoices"
    (Some (CreateInvoicePayload Example.request_with_NaN)) [] =
    (Fail (Wrapped "failed to marshal request body" MarshalError), [])
  /\ is_transport_error
       (Wrapped "failed to marshal request body" MarshalError) = false
  /\ is_api_error
       (Wrapped "failed to marshal request body" MarshalError) = false.
Proof.
  apply (marshal_failure_is_local_and_offline
           (Example.client 200 "{}") tt "POST" "/invoices"
           (CreateInvoicePayload Example.request_with_NaN) []).
  reflexivity.
Defined.

(** * The further properties on the example environment *)

(** X2 on [GetRates]. *)
Lemma endpoint_request_shape_witness :
  let req := new_request (Example.client 200 "{}") tt "GET" "/rates" None in
  Request_URL req = "https://api.itispay.com/api/v1/rates"
  /\ In ("Api-Key", "secret") (Request_Header req)
  /\ Request_Body req = None.
Proof.
  intros req.
  destruct (endpoint_request_shape (Example.client 200 "{}") tt Call_GetRates []
              req (Example.server 200 "{}" [] req))
    as (_ & _ & U & _ & K & B & _).
  - left. reflexivity.
  - split; [exact U|]. split; [|exact B].
    apply K. split; [reflexivity | discriminate].
Defined.

(** X3 on a refused connection. *)
Lemma transport_failure_witness :
  fst (invoke (Scenario.refusing "connection refused") tt Call_GetRates []) =
    Fail (Wrapped "failed to execute request"
            (TransportError "connection refused"))
  /\ length (exchanges
               (new_events
                  (invoke (Scenario.refusing "connection refused") tt
                     Call_GetRates) [])) = 1%nat.
Proof.
  apply (transport_failure_is_returned_wrapped
           (Scenario.refusing "connection refused") tt Call_GetRates []).
  exists []. eexists. reflexivity.
Defined.

(** X4 on a 500 response that breaks off. *)
Lemma unreadable_body_witness :
  fst (invoke (Scenario.truncating 500 "unexpected EOF") tt
         (Call_GetInvoice "inv_1") []) =
  Fail (Wrapped "failed to read response body" (ReadError "unexpected EOF")).
Proof.
  apply (unreadable_body_hides_the_status
           (Scenario.truncating 500 "unexpected EOF") tt
           (Call_GetInvoice "inv_1") [] 500).
  exists []. eexists. reflexivity.
Defined.

(** X5 on an invoice id with a line feed. *)
Lemma rejected_request_witness :
  fst (invoke (Example.client 200 "{}") tt
         (Call_GetInvoice Scenario.id_with_line_feed) []) =
    Fail (Wrapped "failed to create request" NewRequestError)
  /\ exchanges
       (new_events
          (invoke (Example.client 200 "{}") tt
             (Call_GetInvoice Scenario.id_with_line_feed)) []) = [].
Proof.
  apply (rejected_request_is_not_sent (Example.client 200 "{}") tt
           (Call_GetInvoice Scenario.id_with_line_feed) []).
  - reflexivity.
  - intros p E. discriminate E.
Defined.

(** X6 on a 302 response to [GetCurrencies]. *)
Lemma status_below_400_witness :
  fst (invoke (Example.client 302 "[]") tt Call_GetCurrencies []) =
  Ok {| CurrenciesResponse_Currencies := [] |}.
Proof.
  apply (status_below_400_is_decoded (Example.client 302 "[]") tt
           Call_GetCurrencies [] 302 "[]").
  - exists []. eexists. reflexivity.
  - lia.
Defined.

(** X7 on the [invalid_key] response. *)
Lemma APIError_origin_witness :
  exists (body : string) (er : ErrorResponse),
    answered
      (invoke (Example.client 401 Example.invalid_key_body) tt Call_GetRates)
      [] 401 body
    /\ (400 <= 401)%Z
    /\ json_Unmarshal_ErrorResponse body = Some er
    /\ "invalid_key" = ErrorResponse_Error er
    /\ "API key is invalid" = ErrorResponse_Message er.
Proof.
  apply (APIError_reports_a_received_response
           (Example.client 401 Example.invalid_key_body) tt Call_GetRates []
           {| APIError_StatusCode := 401;
              APIError_ErrorType := "invalid_key";
              APIError_Message := "API key is invalid" |}).
  reflexivity.
Defined.

(** X8 on a successful [SimulateWebhook]. *)
Lemma result_origin_witness :
  exists (status : Z) (body : string),
    answered
      (invoke (Example.client 200 Scenario.webhook_ok_body) tt
         (Call_SimulateWebhook "inv_1" "completed")) [] status body
    /\ (status < 400)%Z
    /\ json_Unmarshal_WebhookSimulateResponse body =
       Some {| WebhookSimulateResponse_Status := "ok";
               WebhookSimulateResponse_Message := "sent" |}.
Proof.
  apply (result_comes_from_a_success_response
           (Example.client 200 Scenario.webhook_ok_body) tt
           (Call_SimulateWebhook "inv_1" "completed") []
           {| WebhookSimulateResponse_Status := "ok";
              WebhookSimulateResponse_Message := "sent" |}).
  reflexivity.
Defined.

(** X9 on a response with status 500 and body [not json]. *)
Lemma failure_shape_witness :
  exists status body,
    Plain "HTTP 500: not json" =
      Plain ("HTTP " +:+ fmt_d status +:+ ": " +:+ body)
    /\ answered (invoke (Example.client 500 "not json") tt Call_GetRates) []
         status body
    /\ (400 <= status)%Z
    /\ json_Unmarshal_ErrorResponse body = None.
Proof.
  destruct (every_failure_has_one_of_seven_shapes
              (Example.client 500 "not json") tt Call_GetRates []
              (Plain "HTTP 500: not json") eq_refl)
    as [[D _]|[[D _]|[(m & D & _)|[(s & m & D & _)|[P|[(a & b & D & _)|
        (s & b & D & _)]]]]]]; try discriminate D.
  exact P.
Defined.

(** X11 on a request with an amount, a tolerance and an expiry. *)
Lemma keys_in_field_order_witness :
  exists ms : list (string * string),
    json.emitted_members (CreateInvoiceRequest_json Scenario.full_request) =
      Some ms
    /\ List.map fst ms =
       ["order_id"; "fiat_amount"; "fiat_currency"; "currency";
        "allowed_error_percent"; "expire_min"; "callback_url"].
Proof.
  eexists. split; [reflexivity|].
  apply (CreateInvoiceRequest_keys_in_field_order Scenario.full_request).
  reflexivity.
Defined.

(** X12 on the request with no amounts. *)
Lemma prints_what_it_sends_witness :
  new_events
    (CreateInvoice (Example.client 201 "{}") tt Example.request_without_amount)
    [] =
  [ Stdout
      ("DEBUG: Creating invoice with request:" +:+ newline +:+
       json.indented_object "  "
         [("order_id", json.quote "ORDER-1"); ("currency", json.quote "BTC");
          ("allowed_error_percent", "0")] +:+ newline);
    Exchange
      (new_request (Example.client 201 "{}") tt "POST" "/invoices"
         (Some (json.compact_object
                  [("order_id", json.quote "ORDER-1");
                   ("currency", json.quote "BTC");
                   ("allowed_error_percent", "0")])))
      (Do_ok {| Response_StatusCode := 201;
                Response_Body := ReadAll_ok "{}" |}) ].
Proof.
  apply (CreateInvoice_prints_what_it_sends (Example.client 201 "{}") tt
           Example.request_without_amount []).
  reflexivity.
Defined.

(** X13 on the request whose fiat amount is NaN. *)
Lemma unserializable_request_witness :
  fst (CreateInvoice (Example.client 200 "{}") tt Example.request_with_NaN []) =
    Fail (Wrapped "failed to marshal request body" MarshalError)
  /\ new_events
       (CreateInvoice (Example.client 200 "{}") tt Example.request_with_NaN) []
     = [Stdout ("DEBUG: Creating invoice with request:" +:+ newline
                +:+ newline)].
Proof.
  apply (CreateInvoice_unserializable_request (Example.client 200 "{}") tt
           Example.request_with_NaN []).
  reflexivity.
Defined.

(** X14 on a body that wraps the array in an object. *)
Lemma wrapped_array_is_refused_witness :
  fst (GetCurrencies
         (Example.client 200 ("{" +:+ Example.q "currencies" +:+ ":[]}"))
         tt []) =
  Fail (Wrapped "failed to unmarshal currencies response" UnmarshalError).
Proof.
  destruct (GetCurrencies_accepts_only_an_array_or_null
              (Example.client 200 ("{" +:+ Example.q "currencies" +:+ ":[]}"))
              tt [] 200 ("{" +:+ Example.q "currencies" +:+ ":[]}"))
    as (_ & _ & O).
  - exists []. eexists. reflexivity.
  - lia.
  - eapply O. reflexivity.
Defined.

(** X16 on an id and a status with a quote and a line feed in them. *)
Lemma string_payloads_witness :
  exists body k v,
    json_Marshal
      (UpdateInvoicePayload
         {| UpdateInvoiceRequest_Status := "a" +:+ str1 dquote +:+ newline |}) =
      Some body
    /\ json.parse body = Some (json.Object [(k, json.Str v)])
    /\ json.unquote k = Some "status"
    /\ json.unquote v = Some ("a" +:+ str1 dquote +:+ newline).
Proof.
  apply (string_payloads_read_back "inv_1" ("a" +:+ str1 dquote +:+ newline));
    reflexivity.
Defined.

(** X17 on a 403 response with accented letters. *)
Lemma error_arrives_intact_witness :
  fst (invoke (Example.client 403 Scenario.declined_body) tt
         (Call_GetInvoice "inv_9") []) =
  Fail (API {| APIError_StatusCode := 403;
               APIError_ErrorType := Scenario.declined_type;
               APIError_Message := Scenario.declined_message |}).
Proof.
  apply (error_type_and_message_arrive_intact
           (Example.client 403 Scenario.declined_body) tt
           (Call_GetInvoice "inv_9") [] 403
           Scenario.declined_type Scenario.declined_message).
  - reflexivity.
  - reflexivity.
  - exists []. eexists. reflexivity.
  - lia.
Defined.

(** X18 on a 200 response. *)
Lemma SimulateWebhook_witness :
  fst (SimulateWebhook (Example.client 200 Scenario.webhook_ok_body) tt
         "inv_1" "completed" []) =
  Ok {| WebhookSimulateResponse_Status := "ok";
        WebhookSimulateResponse_Message := "sent" |}.
Proof.
  apply (SimulateWebhook_returns_the_response_fields
           (Example.client 200 Scenario.webhook_ok_body) tt "inv_1" "completed"
           [] 200 "ok" "sent").
  - reflexivity.
  - reflexivity.
  - exists []. eexists. reflexivity.
  - lia.
Defined.

(** X19 on a 502 response of a proxy. *)
Lemma unrelated_error_object_witness :
  fst (invoke (Example.client 502 Scenario.gateway_body) tt Call_GetRates []) =
    Fail (API {| APIError_StatusCode := 502;
                 APIError_ErrorType := "";
                 APIError_Message := "" |})
  /\ APIError_Error {| APIError_StatusCode := 502;
                       APIError_ErrorType := "";
                       APIError_Message := "" |} = "".
Proof.
  apply (error_object_without_known_members
           (Example.client 502 Scenario.gateway_body) tt
           Call_GetRates [] 502 Scenario.gateway_body
           [("code", json.Number "502"); ("detail", json.Str "bad gateway")]).
  - exists []. eexists. reflexivity.
  - lia.
  - reflexivity.
  - repeat constructor.
    + exists "code". split; reflexivity.
    + exists "detail". split; reflexivity.
Defined.
